(** * bird-sql-agent: a shallow embedding of the pipeline core

    The development follows the Python sources
    [utils.py] (schema introspection and formatting, query execution, SQL
    extraction), [evaluate.py] (result comparison, batch evaluation, error
    classification) and [agent_system.py] (the three-stage generation
    pipeline with its single repair attempt), then their callers in
    [main.py] (single-question mode, prompt optimization) and
    [evaluate_test.py] (the executability check of the gold queries).

    Modelling conventions.
    - A Python [str] is a Rocq [string].  Character classification is the
      ASCII one: [isspace] holds for the code points 9-13, 28-31 and 32 (the
      ASCII part of what both [str.strip] and the regular expression class
      [\s] accept), and [upper]/[lower] map the letters a-z/A-Z.  Other
      characters are carried unchanged.
    - Python dictionaries whose iteration order matters are association
      lists with Python's assignment discipline (an existing key keeps its
      position, a new key is appended).
    - Python sets are stdpp [gset]s.
    - Effects (the generation backend, SQLite) are oracles over an abstract
      world; code that calls them lives in a state-and-exception monad that
      also records a trace of the calls made. *)

From Stdlib Require Import ZArith Lia Strings.Ascii.
From stdpp Require Import base option list strings gmap pretty.

Local Open Scope string_scope.

(** ** Python string primitives *)

Module PyStr.

Definition isspace (c : ascii) : bool :=
  let n := N_of_ascii c in
  ((9 <=? n) && (n <=? 13) || (28 <=? n) && (n <=? 32))%N.

Definition upper_char (c : ascii) : ascii :=
  let n := N_of_ascii c in
  if ((97 <=? n) && (n <=? 122))%N then ascii_of_N (n - 32) else c.

Definition lower_char (c : ascii) : ascii :=
  let n := N_of_ascii c in
  if ((65 <=? n) && (n <=? 90))%N then ascii_of_N (n + 32) else c.

Fixpoint map_chars (f : ascii -> ascii) (s : string) : string :=
  match s with
  | EmptyString => EmptyString
  | String c s' => String (f c) (map_chars f s')
  end.

(** [s.upper()] and [s.lower()] *)
Definition upper : string -> string := map_chars upper_char.
Definition lower : string -> string := map_chars lower_char.

(** [s.startswith(p)] *)
Fixpoint startswith (p s : string) : bool :=
  match p, s with
  | EmptyString, _ => true
  | String a p', String b s' => Ascii.eqb a b && startswith p' s'
  | String _ _, EmptyString => false
  end.

(** The remainder of [s] after the literal [p], when [s] starts with it. *)
Fixpoint removeprefix (p s : string) : option string :=
  match p, s with
  | EmptyString, _ => Some s
  | String a p', String b s' =>
      if Ascii.eqb a b then removeprefix p' s' else None
  | String _ _, EmptyString => None
  end.

(** [s.endswith(suf)] *)
Fixpoint endswith (suf s : string) : bool :=
  String.eqb s suf ||
  match s with
  | EmptyString => false
  | String _ s' => endswith suf s'
  end.

(** [needle in hay] *)
Fixpoint contains (needle hay : string) : bool :=
  startswith needle hay ||
  match hay with
  | EmptyString => false
  | String _ hay' => contains needle hay'
  end.

(** [s.lstrip()], [s.rstrip()], [s.strip()] *)
Fixpoint lstrip (s : string) : string :=
  match s with
  | EmptyString => EmptyString
  | String c s' => if isspace c then lstrip s' else s
  end.

Fixpoint rstrip (s : string) : string :=
  match s with
  | EmptyString => EmptyString
  | String c s' =>
      match rstrip s' with
      | EmptyString => if isspace c then EmptyString else String c EmptyString
      | r => String c r
      end
  end.

Definition strip (s : string) : string := rstrip (lstrip s).

(** [s.split(sep)] for a one-character separator: never returns the empty
    list, [''.split(sep) == ['']]. *)
Fixpoint split (sep : ascii) (s : string) : list string :=
  match s with
  | EmptyString => [EmptyString]
  | String c s' =>
      if Ascii.eqb c sep then EmptyString :: split sep s'
      else match split sep s' with
           | [] => [String c EmptyString]
           | piece :: pieces => String c piece :: pieces
           end
  end.

(** [sep.join(pieces)] *)
Fixpoint join (sep : string) (pieces : list string) : string :=
  match pieces with
  | [] => EmptyString
  | [p] => p
  | p :: rest => p +:+ sep +:+ join sep rest
  end.

(** [s == ""], the falsiness test of a string *)
Definition is_empty (s : string) : bool :=
  match s with EmptyString => true | _ => false end.

End PyStr.

(** ** SQL extraction ([utils.py], [extract_sql]) *)

Module Extract.
Import PyStr.

Definition newline : ascii := "010"%char.
Definition fence : string := "```".
Definition sql_marker : string := "```sql".

(** The regular expression [```sql\s*(.*?)\s*```] under [re.DOTALL] is
    matched by backtracking, piece by piece.

    [close_here t]: [\s*```] matches at the start of [t]; the greedy run of
    white space is tried longest first, then shorter. *)
Fixpoint close_here (t : string) : bool :=
  match t with
  | EmptyString => false
  | String c t' => (isspace c && close_here t') || startswith fence t
  end.

(** [lazy_group t]: [(.*?)\s*```] at the start of [t]; the group grows one
    character (of any kind, new lines included) at a time until the rest
    closes.  Returns the captured group. *)
Fixpoint lazy_group (t : string) : option string :=
  if close_here t then Some EmptyString
  else match t with
       | EmptyString => None
       | String c t' => String c <$> lazy_group t'
       end.

(** [open_ws t]: [\s*(.*?)\s*```] at the start of [t]; the first run of
    white space is greedy and gives characters back on failure. *)
Fixpoint open_ws (t : string) : option string :=
  match t with
  | EmptyString => lazy_group t
  | String c t' =>
      if isspace c then
        match open_ws t' with
        | Some g => Some g
        | None => lazy_group t
        end
      else lazy_group t
  end.

Definition match_at (s : string) : option string :=
  match removeprefix sql_marker s with
  | Some t => open_ws t
  | None => None
  end.

(** [re.search(sql_pattern, text, re.DOTALL)]: the leftmost start position
    that admits a match; the result is [match.group(1)]. *)
Fixpoint re_search (s : string) : option string :=
  match match_at s with
  | Some g => Some g
  | None =>
      match s with
      | EmptyString => None
      | String _ s' => re_search s'
      end
  end.

(** The keyword scan over the lines: [in_sql] is the loop's flag, the result
    is [sql_lines] at loop exit ([break] after a line ending in [;]). *)
Fixpoint scan_lines (in_sql : bool) (lines : list string) : list string :=
  match lines with
  | [] => []
  | raw :: rest =>
      let line := strip raw in
      if startswith "SELECT" (upper line) || in_sql then
        if endswith ";" line then [line]
        else line :: scan_lines true rest
      else scan_lines in_sql rest
  end.

Definition extract_sql (text : string) : string :=
  match re_search text with
  | Some g => strip g
  | None =>
      match scan_lines false (split newline text) with
      | [] => text
      | sql_lines => join " " sql_lines
      end
  end.

End Extract.

(** ** Python values and dictionaries *)

Module Py.
Import PyStr.

(** An instance of Python's [Exception], with its [str]. *)
Inductive exn : Type := Exception (message : string).

Definition str_of_exn (e : exn) : string :=
  match e with Exception message => message end.

Definition result (A : Type) : Type := exn + A.

(** The scalar values [sqlite3] hands to Python ([None], [int], [float],
    [str], [bytes]) enter the code only through equality and hashing (as
    members of tuples in sets) and through [str] and [repr].  [py_key] is
    the class of a value under [==]: two values compare equal, and hash
    alike, exactly when their keys are the same. *)
Class PyScalar (V : Type) := {
  py_key : Type;
  py_key_eq_dec :: EqDecision py_key;
  py_key_countable :: Countable py_key;
  py_hash_key : V -> py_key;
  py_str : V -> string;
  py_repr : V -> string
}.

(** [repr] of a tuple and of a list of tuples. *)
Definition repr_tuple `{PyScalar V} (row : list V) : string :=
  match row with
  | [x] => "(" +:+ py_repr x +:+ ",)"
  | _ => "(" +:+ join ", " (py_repr <$> row) +:+ ")"
  end.

Definition repr_rows `{PyScalar V} (rows : list (list V)) : string :=
  "[" +:+ join ", " (repr_tuple <$> rows) +:+ "]".

(** A [dict] with string keys, in insertion order. *)
Section Dict.
Context {A : Type}.

Fixpoint dict_get (k : string) (d : list (string * A)) : option A :=
  match d with
  | [] => None
  | (k', v) :: rest => if String.eqb k k' then Some v else dict_get k rest
  end.

(** [d[k] = v] *)
Fixpoint dict_set (k : string) (v : A) (d : list (string * A))
  : list (string * A) :=
  match d with
  | [] => [(k, v)]
  | (k', v') :: rest =>
      if String.eqb k k' then (k', v) :: rest
      else (k', v') :: dict_set k v rest
  end.
End Dict.

Definition concat_str (pieces : list string) : string :=
  foldr String.append EmptyString pieces.

End Py.

(** ** Schema introspection and formatting ([utils.py]) *)

Module Schema.
Import PyStr Py.

Definition nl : string := String Extract.newline EmptyString.

Section WithValues.
Context {V : Type} `{PyScalar V}.

(** One row of [PRAGMA table_info]: [col[1]] is the column name, [col[2]]
    its declared type. *)
Record pragma_column : Type := { col_name : string; col_type : string }.

(** What the queries of [load_schema] see of one table: its name in
    [sqlite_master], its [PRAGMA table_info] rows, its rows in the order
    [SELECT *] returns them, and its [PRAGMA foreign_key_list] rows. *)
Record db_table : Type := {
  table_name : string;
  table_columns : list pragma_column;
  table_rows : list (list V);
  table_fk_list : list (list V)
}.

Definition database : Type := list db_table.

Record table_info : Type := {
  columns : list string;
  types : list string;
  sample_data : list (list V)
}.

Record fk_edge : Type := {
  table : string;
  column : V;
  ref_table : V;
  ref_column : V
}.

(** The values of the schema dictionary: a table descriptor under a table
    name, the edge list under ["foreign_keys"]. *)
Inductive schema_entry : Type :=
| Table (info : table_info)
| Edges (fks : list fk_edge).

Definition schema : Type := list (string * schema_entry).

Definition describe (t : db_table) : table_info :=
  {| columns := col_name <$> table_columns t;
     types := col_type <$> table_columns t;
     sample_data := take 3 (table_rows t) |}.

(** A [foreign_key_list] row [fk] contributes when [len(fk) >= 5]; the
    edge reads [fk[3]], [fk[2]] and [fk[4]]. *)
Definition edge_of (name : string) (fk : list V) : list fk_edge :=
  match fk with
  | _ :: _ :: fk2 :: fk3 :: fk4 :: _ =>
      [ {| table := name; column := fk3; ref_table := fk2;
           ref_column := fk4 |} ]
  | _ => []
  end.

Definition foreign_keys_of (db : database) : list fk_edge :=
  t ← db; fk ← table_fk_list t; edge_of (table_name t) fk.

Definition load_tables (db : database) : schema :=
  foldl (fun sch t => dict_set (table_name t) (Table (describe t)) sch)
        [] db.

Definition load_schema (db : database) : schema :=
  dict_set "foreign_keys" (Edges (foreign_keys_of db)) (load_tables db).

(** *** [format_schema] *)

Definition column_lines (info : table_info) : list string :=
  imap (fun i col =>
          let col_type := default "unknown" (types info !! i) in
          "  - " +:+ col +:+ " (" +:+ col_type +:+ ")" +:+ nl)
       (columns info).

(** The pairs [column=value] of one row: position [i] is kept while
    [i < len(columns)]. *)
Definition sample_str (info : table_info) (row : list V) : list string :=
  zip_with (fun col val => col +:+ "=" +:+ py_str val) (columns info) row.

(** One rendered line per sample row the loop visits. *)
Definition sample_lines (info : table_info) : list string :=
  (fun row => "  " +:+ join ", " (sample_str info row) +:+ nl)
    <$> take 2 (sample_data info).

Definition sample_block (info : table_info) : string :=
  match sample_data info with
  | [] => ""
  | _ => "Sample data:" +:+ nl +:+ concat_str (sample_lines info)
  end.

Definition format_table (name : string) (info : table_info) : string :=
  "Table: " +:+ name +:+ nl +:+ "Columns:" +:+ nl
    +:+ concat_str (column_lines info) +:+ sample_block info +:+ nl.

(** The per-table loop.  An entry under another name than
    ["foreign_keys"] that is no descriptor makes [table_info["columns"]]
    raise. *)
Fixpoint format_tables (items : schema) : result string :=
  match items with
  | [] => inr ""
  | (name, entry) :: rest =>
      if String.eqb name "foreign_keys" then format_tables rest
      else match entry with
           | Table info =>
               match format_tables rest with
               | inr text => inr (format_table name info +:+ text)
               | inl e => inl e
               end
           | Edges _ =>
               inl (Exception "list indices must be integers or slices, not str")
           end
  end.

Definition arrow : string := " → ".

Definition fk_line (fk : fk_edge) : string :=
  "  " +:+ table fk +:+ "." +:+ py_str (column fk) +:+ arrow
    +:+ py_str (ref_table fk) +:+ "." +:+ py_str (ref_column fk) +:+ nl.

Definition format_foreign_keys (sch : schema) : result string :=
  match dict_get "foreign_keys" sch with
  | None => inr ""
  | Some (Edges []) => inr ""
  | Some (Edges fks) =>
      inr ("Foreign Keys:" +:+ nl +:+ concat_str (fk_line <$> fks))
  | Some (Table _) =>
      inl (Exception "string indices must be integers, not 'str'")
  end.

Definition format_schema (sch : schema) : result string :=
  match format_tables sch with
  | inl e => inl e
  | inr tables =>
      match format_foreign_keys sch with
      | inl e => inl e
      | inr fks => inr ("DATABASE SCHEMA:" +:+ nl +:+ tables +:+ fks)
      end
  end.

End WithValues.

Arguments pragma_column : clear implicits.
Arguments db_table : clear implicits.
Arguments database : clear implicits.
Arguments table_info : clear implicits.
Arguments fk_edge : clear implicits.
Arguments schema_entry : clear implicits.
Arguments schema : clear implicits.

End Schema.

(** ** The outside world: generation backend and SQLite *)

Module Env.
Import PyStr Py Schema.

(** The three generation roles of [create_agents]. *)
Inductive role : Type := Selector | Decomposer | Refiner.

(** The dictionary [execute_query] returns: either the keys ["results"] and
    ["column_names"], or the key ["error"]. *)
Record exec_result (V : Type) : Type := {
  error : option string;
  results : option (list (list V));
  column_names : option (list string)
}.
Arguments error {V} _.
Arguments results {V} _.
Arguments column_names {V} _.

(** The collaborators the code calls into.  Each may raise and may change
    the world.
    - [chat r model message]: [user_proxy.initiate_chat(agent, message)]
      for the agent of role [r] built for [model], then
      [agent.last_message["content"]];
    - [sqlite_introspect db_path]: [sqlite3.connect] and the queries of
      [load_schema];
    - [sqlite_execute db_path query]: [sqlite3.connect], [cursor.execute],
      [fetchall] and the names in [cursor.description] (none when it is
      [None]). *)
Class World (W V : Type) := {
  chat : role -> string -> string -> W -> result string * W;
  sqlite_introspect : string -> W -> result (database V) * W;
  sqlite_execute :
    string -> string -> W -> result (list (list V) * list string) * W
}.

Inductive event (V : Type) : Type :=
| Chatted (r : role) (message : string) (reply : result string)
| Introspected (db_path : string)
| Executed (db_path query : string) (outcome : exec_result V).
Arguments Chatted {V} _ _ _.
Arguments Introspected {V} _.
Arguments Executed {V} _ _ _.

(** What a trace shows: the replies to the Refiner's invocations, and the
    outcomes of the executions, both in order. *)
Definition refiner_replies {V} (tr : list (event V)) : list (result string) :=
  ev ← tr;
  match ev with
  | Chatted Refiner _ reply => [reply]
  | _ => []
  end.

Definition executions {V} (tr : list (event V)) : list (exec_result V) :=
  ev ← tr;
  match ev with
  | Executed _ _ outcome => [outcome]
  | _ => []
  end.

Definition failed {V} (outcome : exec_result V) : bool :=
  bool_decide (is_Some (error outcome)).

Record state (W V : Type) : Type := {
  world : W;
  trace : list (event V)
}.
Arguments world {W V} _.
Arguments trace {W V} _.

(** Computations that read and change the world, append to the trace, and
    either return or raise.  Effects made before an exception stay. *)
Definition M (W V A : Type) : Type := state W V -> result A * state W V.

Section Monad.
Context {W V : Type}.

Definition ret {A} (a : A) : M W V A := fun st => (inr a, st).

Definition raise {A} (e : exn) : M W V A := fun st => (inl e, st).

Definition bind {A B} (m : M W V A) (k : A -> M W V B) : M W V B :=
  fun st =>
    match m st with
    | (inr a, st') => k a st'
    | (inl e, st') => (inl e, st')
    end.

(** [try: body  except Exception as e: handler e] *)
Definition try_except {A} (body : M W V A) (handler : exn -> M W V A)
  : M W V A :=
  fun st =>
    match body st with
    | (inr a, st') => (inr a, st')
    | (inl e, st') => handler e st'
    end.

Definition lift {A} (r : result A) : M W V A := fun st => (r, st).

Definition record (ev : event V) (st : state W V) : state W V :=
  {| world := world st; trace := trace st ++ [ev] |}.
End Monad.

Global Instance M_ret {W V} : MRet (M W V) := @ret W V.
Global Instance M_bind {W V} : MBind (M W V) :=
  fun A B k m => bind m k.

Section Calls.
Context {W V : Type} `{World W V}.

Definition initiate_chat (r : role) (model message : string)
  : M W V string :=
  fun st =>
    let '(reply, w) := chat r model message (world st) in
    (reply, record (Chatted r message reply)
                   {| world := w; trace := trace st |}).

Definition introspect (db_path : string) : M W V (database V) :=
  fun st =>
    let '(db, w) := sqlite_introspect db_path (world st) in
    (db, record (Introspected db_path) {| world := w; trace := trace st |}).

(** [utils.py], [execute_query]: every exception becomes the error
    variant. *)
Definition execute_query (db_path query : string)
  : M W V (exec_result V) :=
  fun st =>
    let '(out, w) := sqlite_execute db_path query (world st) in
    let outcome :=
      match out with
      | inr (rows, names) =>
          {| error := None; results := Some rows;
             column_names := Some names |}
      | inl e =>
          {| error := Some (str_of_exn e); results := None;
             column_names := None |}
      end in
    (inr outcome, record (Executed db_path query outcome)
                         {| world := w; trace := trace st |}).
End Calls.

End Env.

(** ** The generation pipeline ([agent_system.py]) *)

Module AgentSystem.
Import PyStr Py Schema Env Extract.

Section Pipeline.
Context {W V : Type} `{PyScalar V} `{World W V}.

Definition evidence_text (evidence : option string) : string :=
  match evidence with
  | None => ""
  | Some e => if is_empty e then "" else nl +:+ "RELEVANT KNOWLEDGE: " +:+ e
  end.

Definition selector_input question evidence formatted_schema : string :=
  "Question: " +:+ question +:+ evidence_text evidence +:+ nl +:+ nl
    +:+ "Database Schema:" +:+ nl +:+ formatted_schema +:+ nl +:+ nl
    +:+ "Identify only the relevant tables and columns to answer this question.".

Definition decomposer_input question evidence selector_output : string :=
  "Question: " +:+ question +:+ evidence_text evidence +:+ nl +:+ nl
    +:+ "Relevant Schema Information:" +:+ nl +:+ selector_output
    +:+ nl +:+ nl +:+ "Generate a SQL query to answer this question.".

Definition refiner_input question evidence formatted_schema initial_sql
  : string :=
  "Question: " +:+ question +:+ evidence_text evidence +:+ nl +:+ nl
    +:+ "Database Schema:" +:+ nl +:+ formatted_schema +:+ nl +:+ nl
    +:+ "Proposed SQL Query:" +:+ nl +:+ initial_sql +:+ nl +:+ nl
    +:+ "Validate and fix any issues with this SQL query.".

Definition fix_input err question evidence formatted_schema final_sql
  : string :=
  "Error executing SQL: " +:+ err +:+ nl +:+ nl
    +:+ "Question: " +:+ question +:+ evidence_text evidence +:+ nl +:+ nl
    +:+ "Database Schema:" +:+ nl +:+ formatted_schema +:+ nl +:+ nl
    +:+ "Failed SQL Query:" +:+ nl +:+ final_sql +:+ nl +:+ nl
    +:+ "Please fix the query.".

(** Step 5 of [process_text_to_sql]: execute, and on the error variant ask
    the Refiner once more.  [final_sql] is the name the source rebinds;
    the function returns its value at the end of the [try] block. *)
Definition execute_and_fix question db_path model evidence
    formatted_schema (final_sql : string) : M W V string :=
  outcome ← execute_query db_path final_sql;
  match error outcome with
  | Some err =>
      fix_output ← initiate_chat Refiner model
        (fix_input err question evidence formatted_schema final_sql);
      let final_sql := extract_sql fix_output in
      final_result ← execute_query db_path final_sql;
      ret final_sql
  | None => ret final_sql
  end.

(** [create_agents(model)] only builds the three agents and the user
    proxy; the agents act through [initiate_chat]. *)
Definition process_text_to_sql (question db_path model : string)
    (evidence : option string) : M W V string :=
  db ← introspect db_path;
  let schema := load_schema db in
  formatted_schema ← lift (format_schema schema);
  selector_output ← initiate_chat Selector model
    (selector_input question evidence formatted_schema);
  decomposer_output ← initiate_chat Decomposer model
    (decomposer_input question evidence selector_output);
  let initial_sql := extract_sql decomposer_output in
  refiner_output ← initiate_chat Refiner model
    (refiner_input question evidence formatted_schema initial_sql);
  let final_sql := extract_sql refiner_output in
  (* an exception inside the [try] can only come from the repair call,
     before [final_sql] is rebound *)
  try_except
    (execute_and_fix question db_path model evidence formatted_schema
       final_sql)
    (fun _ => ret final_sql).

End Pipeline.

End AgentSystem.

(** ** Evaluation ([evaluate.py]) *)

Module Evaluate.
Import PyStr Py Schema Env Extract AgentSystem.

(** *** [compare_results] *)

Section Comparator.
Context {V : Type} `{PyScalar V}.

(** [set(tuple(row) for row in data)] *)
Definition tuple_key (row : list V) : list py_key := py_hash_key <$> row.

Definition row_set (data : list (list V)) : gset (list py_key) :=
  list_to_set (tuple_key <$> data).

(** The set the loop [flat.update(str(item) for item in row)] builds. *)
Definition flat_set (data : list (list V)) : gset string :=
  list_to_set (row ← data; py_str <$> row).

Definition compare_results (gold_results pred_results : exec_result V)
  : bool :=
  if bool_decide (is_Some (error gold_results))
     || bool_decide (is_Some (error pred_results))
  then false
  else
    let gold_cols := default [] (column_names gold_results) in
    let pred_cols := default [] (column_names pred_results) in
    let gold_data := default [] (results gold_results) in
    let pred_data := default [] (results pred_results) in
    if negb (Nat.eqb (length gold_cols) (length pred_cols)) then
      let gold_flat := flat_set gold_data in
      let pred_flat := flat_set pred_data in
      bool_decide (gold_flat ⊆ pred_flat)
      || bool_decide (pred_flat ⊆ gold_flat)
    else
      let col_match :=
        bool_decide (list_to_set gold_cols =@{gset string}
                     list_to_set pred_cols) in
      let gold_set := row_set gold_data in
      let pred_set := row_set pred_data in
      if col_match then bool_decide (gold_set = pred_set)
      else bool_decide (gold_set = pred_set)
           || bool_decide (size gold_set = size pred_set).
End Comparator.

(** *** Records of a run *)

(** One benchmark question: the keys ["question"], ["db_id"], ["SQL"] and
    the optional ["evidence"]. *)
Record benchmark_item : Type := {
  question : string;
  db_id : string;
  SQL : string;
  evidence : option string
}.

(** One entry of [results["details"]].  Every key that [analyze_errors]
    reads with [.get] or tests with [in] is optional; [run_error] is the
    key ["error"]. *)
Record detail : Type := {
  rec_question : option string;
  rec_db_id : option string;
  gold_query : option string;
  predicted_query : option string;
  is_correct : option bool;
  gold_results : option string;
  pred_results : option string;
  run_error : option string
}.

Record run_results : Type := {
  correct : nat;
  total : nat;
  details : list detail
}.

(** *** [analyze_errors] *)

Definition error_type (item : detail) : string :=
  let pred_query := lower (default "" (predicted_query item)) in
  let gold_query := lower (default "" (gold_query item)) in
  if bool_decide (is_Some (run_error item)) then "Execution Error"
  else if is_empty pred_query then "Empty Query"
  else if contains "join" gold_query && negb (contains "join" pred_query)
  then "Missing JOIN"
  else if contains "where" gold_query && negb (contains "where" pred_query)
  then "Missing WHERE"
  else if contains "group by" gold_query
          && negb (contains "group by" pred_query)
  then "Missing GROUP BY"
  else if contains "order by" gold_query
          && negb (contains "order by" pred_query)
  then "Missing ORDER BY"
  else if contains "strftime" gold_query
          && negb (contains "strftime" pred_query)
  then "Date Format Error"
  else if contains "iif" gold_query && negb (contains "iif" pred_query)
  then "Conditional Logic Error"
  else "Other".

(** [d[k] = d.get(k, 0) + 1] *)
Definition bump (k : string) (d : list (string * nat)) : list (string * nat) :=
  dict_set k (default 0 (dict_get k d) + 1) d.

Definition incorrect_of (ds : list detail) : list detail :=
  filter (fun item => negb (default false (is_correct item)) = true) ds.

Definition tally (acc : list (string * nat) * list (string * nat))
    (item : detail) : list (string * nat) * list (string * nat) :=
  let db_id := default "unknown" (rec_db_id item) in
  (bump (error_type item) acc.1, bump db_id acc.2).

(** The argument is [results["details"]] when the key is present.  The
    result is the pair [(error_types, db_errors)], or [None] on the two
    early returns. *)
Definition analyze_errors (details : option (list detail))
  : option (list (string * nat) * list (string * nat)) :=
  match details with
  | None => None
  | Some ds =>
      match incorrect_of ds with
      | [] => None
      | incorrect => Some (foldl tally ([], []) incorrect)
      end
  end.

(** *** [evaluate_on_benchmark] *)

(** [os.path.join] on POSIX paths. *)
Definition path_join2 (path b : string) : string :=
  if startswith "/" b then b
  else if is_empty path || endswith "/" path then path +:+ b
  else path +:+ "/" +:+ b.

Definition os_path_join (a : string) (rest : list string) : string :=
  foldl path_join2 a rest.

(** The files the evaluation writes.  Each call may raise and may change
    the world.
    - [dump_results path results]: [with open(path, "w") as f:
      json.dump(results, f, indent=2)];
    - [save_figure path]: the bar chart and [plt.savefig(path)]. *)
Class Files (W : Type) := {
  dump_results : string -> run_results -> W -> result unit * W;
  save_figure : string -> W -> result unit * W
}.

Section Batch.
Context {W V : Type} `{PyScalar V} `{World W V} `{Files W}.

Definition db_path_of (db_root : string) (item : benchmark_item) : string :=
  os_path_join db_root [db_id item; db_id item +:+ ".sqlite"].

(** [results] after the [try] block ran to its end. *)
Definition record_outcome (acc : run_results) (item : benchmark_item)
    (predicted_sql : string) (gold_res pred : exec_result V) : run_results :=
  let ok := compare_results gold_res pred in
  {| correct := if ok then S (correct acc) else correct acc;
     total := total acc;
     details := details acc ++
       [ {| rec_question := Some (question item);
            rec_db_id := Some (db_id item);
            gold_query := Some (SQL item);
            predicted_query := Some predicted_sql;
            is_correct := Some ok;
            gold_results := Some (repr_rows (default [] (results gold_res)));
            pred_results := Some (repr_rows (default [] (results pred)));
            run_error := None |} ] |}.

(** [results] after the [except] clause. *)
Definition record_failure (acc : run_results) (item : benchmark_item)
    (predicted_sql : string) (e : exn) : run_results :=
  {| correct := correct acc;
     total := total acc;
     details := details acc ++
       [ {| rec_question := Some (question item);
            rec_db_id := Some (db_id item);
            gold_query := Some (SQL item);
            predicted_query := Some predicted_sql;
            is_correct := Some false;
            gold_results := None;
            pred_results := None;
            run_error := Some (str_of_exn e) |} ] |}.

(** The [try] block of the loop. *)
Definition score_question (acc : run_results) (item : benchmark_item)
    (db_path predicted_sql : string) : M W V run_results :=
  pred ← execute_query db_path predicted_sql;
  gold_res ← execute_query db_path (SQL item);
  ret (record_outcome acc item predicted_sql gold_res pred).

Definition write_results (path : string) (res : run_results) : M W V unit :=
  fun st =>
    let '(out, w) := dump_results path res (world st) in
    (out, {| world := w; trace := trace st |}).

Definition savefig (path : string) : M W V unit :=
  fun st =>
    let '(out, w) := save_figure path (world st) in
    (out, {| world := w; trace := trace st |}).

(** [(idx + 1) % 5 == 0 or idx == len(benchmark_data) - 1]; [n] is
    [len(benchmark_data)], which is at least one inside the loop. *)
Definition checkpoint_due (n idx : nat) : bool :=
  Nat.eqb ((idx + 1) mod 5) 0 || Nat.eqb idx (n - 1).

(** The intermediate results, written inside the loop and outside the
    [try]. *)
Definition checkpoint (output_file : string) (n idx : nat)
    (acc : run_results) : M W V unit :=
  if checkpoint_due n idx
  then write_results ("interim_" +:+ output_file) acc
  else ret tt.

(** The [try] statement of the loop around a block [body]:
    [try: body  except Exception as e: ...], the clause recording a
    failure entry. *)
Definition guard_question (acc : run_results) (item : benchmark_item)
    (predicted_sql : string) (body : M W V run_results)
  : M W V run_results :=
  try_except body (fun e => ret (record_failure acc item predicted_sql e)).

(** The body of the loop for question number [idx]; [acc] is [results] so
    far.  The pipeline runs first, outside the [try]; the checkpoint is
    written last, outside the [try] as well.  The delay and the progress
    output have no part in what is returned. *)
Definition evaluate_question (db_root model output_file : string)
    (n idx : nat) (acc : run_results) (item : benchmark_item)
  : M W V run_results :=
  let db_path := db_path_of db_root item in
  let evid := default "" (evidence item) in
  predicted_sql ←
    process_text_to_sql (question item) db_path model (Some evid);
  acc' ← guard_question acc item predicted_sql
           (score_question acc item db_path predicted_sql);
  _ ← checkpoint output_file n idx acc';
  ret acc'.

(** [for idx, item in enumerate(benchmark_data): ...], from question
    number [idx] on. *)
Fixpoint evaluate_loop (db_root model output_file : string) (n idx : nat)
    (acc : run_results) (items : list benchmark_item) : M W V run_results :=
  match items with
  | [] => ret acc
  | item :: rest =>
      acc' ← evaluate_question db_root model output_file n idx acc item;
      evaluate_loop db_root model output_file n (S idx) acc' rest
  end.

(** [benchmark_data[:sample_size]] under the guard
    [sample_size and sample_size > 0]. *)
Definition sample (benchmark_data : list benchmark_item)
    (sample_size : option Z) : list benchmark_item :=
  match sample_size with
  | Some n => if (0 <? n)%Z then take (Z.to_nat n) benchmark_data
              else benchmark_data
  | None => benchmark_data
  end.

(** The accuracy is [correct / total * 100]; the division raises on an
    empty batch.  The quotient itself is a float and is not part of
    [run_results].  The results are then written to [output_file] and the
    chart to [accuracy_results.png]. *)
Definition evaluate_on_benchmark (benchmark_data : list benchmark_item)
    (db_root model : string) (sample_size : option Z) (output_file : string)
  : M W V run_results :=
  let data := sample benchmark_data sample_size in
  let init := {| correct := 0; total := length data; details := [] |} in
  res ← evaluate_loop db_root model output_file (length data) 0 init data;
  if Nat.eqb (total res) 0 then raise (Exception "division by zero")
  else
    _ ← write_results output_file res;
    _ ← savefig "accuracy_results.png";
    ret res.
End Batch.

End Evaluate.

(** ** A concrete value type and scripted worlds *)

Module Concrete.
Import PyStr Py Schema Env.

(** SQLite's [NULL], [INTEGER] and [TEXT] values as Python sees them. *)
Inductive sql_value : Type :=
| SqlNull
| SqlInteger (n : Z)
| SqlText (s : string).

Global Instance sql_value_eq_dec : EqDecision sql_value.
Proof. solve_decision. Defined.

Definition sql_value_encode (v : sql_value) : unit + (Z + string) :=
  match v with
  | SqlNull => inl tt
  | SqlInteger n => inr (inl n)
  | SqlText s => inr (inr s)
  end.

Definition sql_value_decode (x : unit + (Z + string)) : sql_value :=
  match x with
  | inl _ => SqlNull
  | inr (inl n) => SqlInteger n
  | inr (inr s) => SqlText s
  end.

Global Instance sql_value_countable : Countable sql_value.
Proof.
  apply (inj_countable' sql_value_encode sql_value_decode).
  intros []; reflexivity.
Defined.

Definition double_quote : ascii := ascii_of_N 34.
Definition single_quote : ascii := ascii_of_N 39.
Definition backslash : ascii := ascii_of_N 92.

Definition hex_digit (n : N) : ascii :=
  if (n <? 10)%N then ascii_of_N (48 + n) else ascii_of_N (87 + n).

(** [repr] of a [str], one character at a time. *)
Definition repr_char (quote c : ascii) : string :=
  let n := N_of_ascii c in
  if Ascii.eqb c quote || Ascii.eqb c backslash
  then String backslash (String c EmptyString)
  else if (n =? 9)%N then String backslash "t"
  else if (n =? 10)%N then String backslash "n"
  else if (n =? 13)%N then String backslash "r"
  else if ((n <? 32) || (n =? 127))%N
  then String backslash
         (String "x" (String (hex_digit (n / 16))
                        (String (hex_digit (n mod 16)) EmptyString)))
  else String c EmptyString.

Fixpoint repr_chars (quote : ascii) (s : string) : string :=
  match s with
  | EmptyString => EmptyString
  | String c s' => repr_char quote c +:+ repr_chars quote s'
  end.

Definition repr_str (s : string) : string :=
  let quote :=
    if contains (String single_quote EmptyString) s
       && negb (contains (String double_quote EmptyString) s)
    then double_quote else single_quote in
  String quote (repr_chars quote s) +:+ String quote EmptyString.

Global Instance sql_value_scalar : PyScalar sql_value := {|
  py_key := sql_value;
  py_hash_key := fun v => v;
  py_str := fun v =>
    match v with
    | SqlNull => "None"
    | SqlInteger n => pretty n
    | SqlText s => s
    end;
  py_repr := fun v =>
    match v with
    | SqlNull => "None"
    | SqlInteger n => pretty n
    | SqlText s => repr_str s
    end
|}.

(** A world whose collaborators answer from fixed tables and keep no
    state. *)
Record script : Type := {
  on_chat : role -> string -> result string;
  on_introspect : string -> result (database sql_value);
  on_execute :
    string -> string -> result (list (list sql_value) * list string)
}.

Global Instance script_world : World script sql_value := {|
  chat := fun r _ message w => (on_chat w r message, w);
  sqlite_introspect := fun db_path w => (on_introspect w db_path, w);
  sqlite_execute := fun db_path query w => (on_execute w db_path query, w)
|}.

(** The files of a scripted world: the working directory can be written
    to and has no subdirectory. *)
Definition no_such_file (path : string) : exn :=
  Exception ("[Errno 2] No such file or directory: '" +:+ path +:+ "'").

Global Instance script_files : Evaluate.Files script := {|
  Evaluate.dump_results := fun path _ w =>
    (if contains "/" path then inl (no_such_file path) else inr tt, w);
  Evaluate.save_figure := fun path w =>
    (if contains "/" path then inl (no_such_file path) else inr tt, w)
|}.

Definition start (w : script) : state script sql_value :=
  {| world := w; trace := [] |}.

(** A database with a table that is itself called [foreign_keys]. *)
Definition shop_db : database sql_value :=
  [ {| table_name := "customers";
       table_columns :=
         [ {| col_name := "id"; col_type := "INTEGER" |};
           {| col_name := "Currency"; col_type := "TEXT" |} ];
       table_rows :=
         [ [SqlInteger 1; SqlText "EUR"]; [SqlInteger 2; SqlText "CZK"];
           [SqlInteger 3; SqlText "EUR"]; [SqlInteger 4; SqlText "EUR"] ];
       table_fk_list := [] |};
    {| table_name := "foreign_keys";
       table_columns := [ {| col_name := "customer"; col_type := "INTEGER" |} ];
       table_rows := [];
       table_fk_list :=
         [ [SqlInteger 0; SqlInteger 0; SqlText "customers";
            SqlText "customer"; SqlText "id"; SqlText "NO ACTION";
            SqlText "NO ACTION"; SqlText "NONE"] ] |} ].

Definition fenced (sql : string) : string :=
  "```sql" +:+ nl +:+ sql +:+ nl +:+ "```".

(** A backend that always proposes the same two queries, over a database
    on which every statement fails. *)
Definition failing_executor : script := {|
  on_chat := fun r message =>
    inr (if startswith "Error executing SQL" message
         then fenced "SELECT COUNT(*) FROM customer"
         else fenced "SELECT COUNT(*) FROM customers");
  on_introspect := fun _ => inr [];
  on_execute := fun _ _ => inl (Exception "no such table")
|}.

(** A benchmark whose first question names a database directory that does
    not exist: [sqlite3.connect] raises there.  Everything else works. *)
Definition missing_database : script := {|
  on_chat := fun _ _ => inr (fenced "SELECT 1");
  on_introspect := fun db_path =>
    if String.eqb db_path "dbs/missing/missing.sqlite"
    then inl (Exception "unable to open database file")
    else inr [];
  on_execute := fun _ _ => inr ([[SqlInteger 1]], ["1"])
|}.

Definition two_questions : list Evaluate.benchmark_item :=
  [ {| Evaluate.question := "How many customers are there?";
       Evaluate.db_id := "missing";
       Evaluate.SQL := "SELECT 1";
       Evaluate.evidence := None |};
    {| Evaluate.question := "How many orders are there?";
       Evaluate.db_id := "shop";
       Evaluate.SQL := "SELECT 1";
       Evaluate.evidence := None |} ].

End Concrete.

Import PyStr Py Schema Env Extract AgentSystem Evaluate Concrete.

(** ** Notions of the specification

    The error classifier in the words of the specification, and the schema
    model with its sample rows capped. *)

Module Spec.
Import PyStr Evaluate.

(** [needle] occurs in [text] when the case of letters is ignored. *)
Definition occurs_ignoring_case (needle text : string) : Prop :=
  exists before found after,
    text = before +:+ found +:+ after /\ lower found = lower needle.

(** The gold query shows [needle], the predicted query does not. *)
Definition only_in_gold (needle : string) (item : detail) : Prop :=
  occurs_ignoring_case needle (default "" (gold_query item))
  /\ ~ occurs_ignoring_case needle (default "" (predicted_query item)).

(** The tests in their fixed order, each with its label. *)
Definition priority (item : detail) : list (Prop * string) :=
  [ (is_Some (run_error item), "Execution Error");
    (default "" (predicted_query item) = "", "Empty Query");
    (only_in_gold "JOIN" item, "Missing JOIN");
    (only_in_gold "WHERE" item, "Missing WHERE");
    (only_in_gold "GROUP BY" item, "Missing GROUP BY");
    (only_in_gold "ORDER BY" item, "Missing ORDER BY");
    (only_in_gold "STRFTIME" item, "Date Format Error");
    (only_in_gold "IIF" item, "Conditional Logic Error") ].

(** [first_match otherwise tests label]: [label] belongs to the first test
    of [tests] that holds, and is [otherwise] when none does. *)
Inductive first_match (otherwise : string)
  : list (Prop * string) -> string -> Prop :=
| first_match_none : first_match otherwise [] otherwise
| first_match_here (P : Prop) (label : string) rest :
    P -> first_match otherwise ((P, label) :: rest) label
| first_match_later (P : Prop) (label : string) rest label' :
    ~ P -> first_match otherwise rest label' ->
    first_match otherwise ((P, label) :: rest) label'.

(** A schema model cut down to the first two sample rows of every
    table. *)
Definition keep_two `{Py.PyScalar V} (info : Schema.table_info V)
  : Schema.table_info V :=
  {| Schema.columns := Schema.columns info;
     Schema.types := Schema.types info;
     Schema.sample_data := take 2 (Schema.sample_data info) |}.

Definition keep_two_entry `{Py.PyScalar V} (entry : Schema.schema_entry V)
  : Schema.schema_entry V :=
  match entry with
  | Schema.Table info => Schema.Table (keep_two info)
  | Schema.Edges fks => Schema.Edges fks
  end.

Definition keep_two_schema `{Py.PyScalar V} (sch : Schema.schema V)
  : Schema.schema V :=
  (fun kv => (kv.1, keep_two_entry kv.2)) <$> sch.

End Spec.

Import Spec.

(** ** What a trace shows of the stages *)

Module Observe.
Import Py Env.

(** The roles invoked along a trace, in order. *)
Definition stage_calls {V} (tr : list (event V)) : list role :=
  ev ← tr;
  match ev with
  | Chatted r _ _ => [r]
  | _ => []
  end.

End Observe.

(** ** The command-line entry points ([main.py]) *)

Module Main.
Import PyStr Py Schema Env Extract AgentSystem Evaluate.

(** *** [os.path.dirname] and [os.path.basename] on POSIX paths *)






(** *** [run_single_query] *)



Section Single.
Context {W V : Type} `{PyScalar V} `{World W V}.


End Single.

(** *** [optimize_prompts] *)

Global Instance detail_eq_dec : EqDecision detail.
Proof. solve_decision. Defined.

(** [[item for item in results["details"] if item.get("is_correct", False)]] *)
Definition correct_of (ds : list detail) : list detail :=
  filter (fun item => default false (is_correct item) = true) ds.

(** The first loop over the correct records: one example per database, in
    order, until [num_examples] are selected.  [item["db_id"]] raises when
    the key is missing. *)
Fixpoint pick_distinct (num_examples : nat) (selected : list detail)
    (db_ids : gset string) (correct : list detail) : result (list detail) :=
  match correct with
  | [] => inr selected
  | item :: rest =>
      if Nat.leb num_examples (length selected) then inr selected
      else match rec_db_id item with
           | None => inl (Exception "'db_id'")
           | Some db =>
               if bool_decide (db ∈ db_ids)
               then pick_distinct num_examples selected db_ids rest
               else pick_distinct num_examples (selected ++ [item])
                      ({[db]} ∪ db_ids) rest
           end
  end.

(** The second loop: more records, each at most once. *)
Fixpoint fill_up (num_examples : nat) (selected correct : list detail)
  : list detail :=
  match correct with
  | [] => selected
  | item :: rest =>
      if Nat.leb num_examples (length selected) then selected
      else if bool_decide (item ∈ selected)
           then fill_up num_examples selected rest
           else fill_up num_examples (selected ++ [item]) rest
  end.

Definition select_examples (correct : list detail) : result (list detail) :=
  let num_examples := Nat.min 3 (length correct) in
  match pick_distinct num_examples [] ∅ correct with
  | inl e => inl e
  | inr selected =>
      inr (if Nat.ltb (length selected) num_examples
           then fill_up num_examples selected correct
           else selected)
  end.

(** The text of the examples after the heading; [i] counts from zero. *)
Fixpoint format_examples (i : nat) (selected : list detail) : result string :=
  match selected with
  | [] => inr EmptyString
  | item :: rest =>
      match rec_question item with
      | None => inl (Exception "'question'")
      | Some question =>
          match predicted_query item with
          | None => inl (Exception "'predicted_query'")
          | Some sql =>
              match format_examples (S i) rest with
              | inl e => inl e
              | inr text =>
                  inr ("Example " +:+ pretty (S i) +:+ ":" +:+ nl
                       +:+ "Question: " +:+ question +:+ nl
                       +:+ "SQL: " +:+ sql +:+ nl +:+ nl +:+ text)
              end
          end
      end
  end.

(** [sorted(items, key=lambda x: x[1], reverse=True)]: by falling count,
    entries of equal count in their first order. *)
Fixpoint insert_by_count (x : string * nat) (l : list (string * nat))
  : list (string * nat) :=
  match l with
  | [] => [x]
  | y :: l' => if Nat.leb x.2 y.2 then y :: insert_by_count x l' else x :: l
  end.

Definition sorted_by_count (items : list (string * nat))
  : list (string * nat) :=
  foldl (fun acc x => insert_by_count x acc) [] items.

Definition guidance_heading : string :=
  nl +:+ nl +:+ "COMMON ERRORS TO AVOID:" +:+ nl.

Definition error_guidance (error_types : list (string * nat)) : string :=
  let common_errors := take 3 (sorted_by_count error_types).*1 in
  guidance_heading
  +:+ (if bool_decide ("Missing JOIN" ∈ common_errors)
       then "1. Ensure proper JOIN conditions between tables when query involves multiple tables" +:+ nl
       else "")
  +:+ (if bool_decide ("Date Format Error" ∈ common_errors)
       then "2. Use SQLite date functions correctly (STRFTIME, SUBSTR, etc.)" +:+ nl
       else "")
  +:+ (if bool_decide ("Conditional Logic Error" ∈ common_errors)
       then "3. Use IIF or CASE WHEN for conditional logic" +:+ nl
       else "")
  +:+ (if bool_decide ("Missing GROUP BY" ∈ common_errors)
       then "4. Include GROUP BY when using aggregation functions" +:+ nl
       else "").

Section Optimize.
(** The prompts of [agent_system.py] that are extended. *)
Variables DECOMPOSER_PROMPT REFINER_PROMPT : string.

(** [optimize_prompts] once the results file is found and loaded; the
    argument is [results["details"]] when the key is there.  The pair
    returned is [(enhanced_decomposer, enhanced_refiner)]; unpacking the
    [None] of [analyze_errors] raises. *)
Definition optimize_prompts (details : option (list detail))
  : result (string * string) :=
  match analyze_errors details with
  | None => inl (Exception "cannot unpack non-iterable NoneType object")
  | Some (error_types, db_errors) =>
      let correct := correct_of (default [] details) in
      match select_examples correct with
      | inl e => inl e
      | inr selected =>
          match format_examples 0 selected with
          | inl e => inl e
          | inr listed =>
              let examples := "EXAMPLES:" +:+ nl +:+ nl +:+ listed in
              let guidance :=
                match error_types with
                | [] => ""
                | _ => error_guidance error_types
                end in
              let shots :=
                match selected with
                | [] => ""
                | _ => nl +:+ nl +:+ examples
                end in
              inr (DECOMPOSER_PROMPT +:+ guidance +:+ shots,
                   REFINER_PROMPT +:+ guidance +:+ shots)
          end
      end
  end.
End Optimize.

End Main.

(** ** The executability check of the gold queries ([evaluate_test.py]) *)

Module EvaluateTest.
Import PyStr Py Schema Env Evaluate.

(** [l[:n]] for any integer [n]. *)
Definition py_prefix {A} (n : Z) (l : list A) : list A :=
  if (0 <=? n)%Z then take (Z.to_nat n) l
  else take (length l - Z.to_nat (- n)) l.

Section Test.
Context {W V : Type} `{PyScalar V} `{World W V}.

(** The entry stored for a gold query that ran: four keys only. *)
Definition executed_entry (item : benchmark_item) (gold : exec_result V)
  : detail :=
  {| rec_question := Some (question item);
     rec_db_id := Some (db_id item);
     gold_query := Some (SQL item);
     predicted_query := None;
     is_correct := None;
     gold_results :=
       Some (repr_rows (take 3 (default [] (results gold))));
     pred_results := None;
     run_error := None |}.

(** The loop: a gold query that fails is skipped with [continue]. *)
Fixpoint test_loop (db_root : string) (acc : run_results)
    (items : list benchmark_item) : M W V run_results :=
  match items with
  | [] => ret acc
  | item :: rest =>
      gold ← execute_query (db_path_of db_root item) (SQL item);
      match error gold with
      | Some _ => test_loop db_root acc rest
      | None =>
          test_loop db_root
            {| correct := S (correct acc);
               total := total acc;
               details := details acc ++ [executed_entry item gold] |}
            rest
      end
  end.

Definition test_evaluation (benchmark_data : list benchmark_item)
    (db_root : string) (sample_size : Z) : M W V run_results :=
  let data := py_prefix sample_size benchmark_data in
  let init := {| correct := 0; total := length data; details := [] |} in
  res ← test_loop db_root init data;
  if Nat.eqb (total res) 0 then raise (Exception "division by zero")
  else ret res.

End Test.

End EvaluateTest.


(** ** Further sample data *)

Module Samples.
Import PyStr Py Schema Env Evaluate Concrete.

(** Two tables with one foreign key between them. *)
Definition library_db : database sql_value :=
  [ {| table_name := "books";
       table_columns :=
         [ {| col_name := "id"; col_type := "INTEGER" |};
           {| col_name := "title"; col_type := "TEXT" |} ];
       table_rows :=
         [ [SqlInteger 1; SqlText "Emma"]; [SqlInteger 2; SqlText "Ulysses"];
           [SqlInteger 3; SqlText "Dracula"]; [SqlInteger 4; SqlText "Kim"] ];
       table_fk_list := [] |};
    {| table_name := "loans";
       table_columns :=
         [ {| col_name := "book"; col_type := "INTEGER" |};
           {| col_name := "reader"; col_type := "TEXT" |} ];
       table_rows := [ [SqlInteger 2; SqlText "ann"] ];
       table_fk_list :=
         [ [SqlInteger 0; SqlInteger 0; SqlText "books"; SqlText "book";
            SqlText "id"; SqlText "NO ACTION"; SqlText "NO ACTION";
            SqlText "NONE"] ] |} ].

(** Every statement fails, and the backend is gone when the repair is
    asked for. *)
Definition repair_unavailable : script := {|
  on_chat := fun r message =>
    if startswith "Error executing SQL" message
    then inl (Exception "connection refused")
    else inr (fenced "SELECT COUNT(*) FROM customers");
  on_introspect := fun _ => inr [];
  on_execute := fun _ _ => inl (Exception "no such table")
|}.

Definition missed_entry (db gold predicted : string) : detail :=
  {| rec_question := Some "q"; rec_db_id := Some db;
     gold_query := Some gold; predicted_query := Some predicted;
     is_correct := Some false; gold_results := Some "[]";
     pred_results := Some "[]"; run_error := None |}.

Definition solved_entry (db query : string) : detail :=
  {| rec_question := Some ("About " +:+ db); rec_db_id := Some db;
     gold_query := Some query; predicted_query := Some query;
     is_correct := Some true; gold_results := Some "[(1,)]";
     pred_results := Some "[(1,)]"; run_error := None |}.

(** Three failures over two databases, and two successes. *)
Definition mixed_details : list detail :=
  [ missed_entry "shop" "SELECT a FROM t JOIN u ON t.x = u.x" "SELECT a FROM t";
    solved_entry "shop" "SELECT 1";
    missed_entry "hr" "SELECT a FROM t WHERE a > 1" "SELECT a FROM t";
    missed_entry "shop" "SELECT b FROM t join u" "SELECT b FROM t";
    solved_entry "hr" "SELECT 2" ].

End Samples.

Import Observe Main EvaluateTest Samples.

(** * Properties *)

(** ** Strings *)

(* Character and string equality tests stay folded under [simpl]. *)
Arguments Ascii.eqb : simpl never.
Arguments String.eqb : simpl never.

Lemma append_nil_l (s : string) : "" +:+ s = s.
Proof. reflexivity. Qed.

Lemma append_cons (c : ascii) (a b : string) :
  String c a +:+ b = String c (a +:+ b).
Proof. reflexivity. Qed.

(** Push appends inwards, then compute. *)
Ltac str_simpl :=
  repeat (rewrite append_cons || rewrite append_nil_l); simpl;
  repeat (rewrite append_cons || rewrite append_nil_l).

Ltac str_simpl_in H :=
  repeat (rewrite append_cons in H || rewrite append_nil_l in H); simpl in H.

Section StringFacts.

Lemma append_assoc (a b c : string) : (a +:+ b) +:+ c = a +:+ b +:+ c.
Proof. induction a as [|x a IH]; str_simpl; congruence. Qed.

Lemma append_nil_r (a : string) : a +:+ "" = a.
Proof. induction a as [|x a IH]; str_simpl; congruence. Qed.

Lemma removeprefix_startswith (p s : string) :
  removeprefix p s = None <-> startswith p s = false.
Proof.
  revert s; induction p as [|a p IH]; intros [|b s]; simpl;
    try (split; congruence).
  destruct (Ascii.eqb a b); simpl; [apply IH | tauto].
Qed.

Lemma removeprefix_app (p s : string) : removeprefix p (p +:+ s) = Some s.
Proof.
  induction p as [|a p IH]; str_simpl; [reflexivity |].
  now rewrite Ascii.eqb_refl.
Qed.

Lemma startswith_app (p s : string) : startswith p (p +:+ s) = true.
Proof.
  induction p as [|a p IH]; str_simpl; [reflexivity |].
  now rewrite Ascii.eqb_refl.
Qed.

(** A string that starts with the fence starts with a back quote, which
    is no white space. *)
Lemma startswith_fence_head (c : ascii) (t : string) :
  startswith fence (String c t) = true -> isspace c = false.
Proof.
  unfold fence; simpl.
  destruct (Ascii.eqb_spec "`"%char c) as [<-|]; simpl; intros Hf;
    [reflexivity | discriminate Hf].
Qed.

Lemma lstrip_blank_rstrip (s : string) : lstrip s = "" <-> rstrip s = "".
Proof.
  induction s as [|c s IH]; simpl; [tauto |].
  destruct (isspace c) eqn:Hc.
  - rewrite IH. destruct (rstrip s); split; congruence.
  - destruct (rstrip s); split; congruence.
Qed.

Lemma lstrip_head (s : string) :
  lstrip s = "" \/
  exists c t, lstrip s = String c t /\ isspace c = false.
Proof.
  induction s as [|c s IH]; simpl; [now left |].
  destruct (isspace c) eqn:Hc; [exact IH | right; eauto].
Qed.

Lemma rstrip_cons (c : ascii) (s : string) :
  rstrip (String c s) =
  match rstrip s with
  | "" => if isspace c then "" else String c ""
  | r => String c r
  end.
Proof. reflexivity. Qed.

Lemma rstrip_idem (s : string) : rstrip (rstrip s) = rstrip s.
Proof.
  induction s as [|c s IH]; [reflexivity |].
  rewrite rstrip_cons.
  destruct (rstrip s) as [|d r] eqn:Hr.
  - destruct (isspace c) eqn:Hc; [reflexivity |].
    rewrite rstrip_cons. simpl. now rewrite Hc.
  - rewrite rstrip_cons, IH. reflexivity.
Qed.

Lemma lstrip_rstrip_lstrip (s : string) :
  lstrip (rstrip (lstrip s)) = rstrip (lstrip s).
Proof.
  destruct (lstrip_head s) as [-> | (c & t & -> & Hc)]; [reflexivity |].
  rewrite rstrip_cons.
  destruct (rstrip t); rewrite ?Hc; simpl; now rewrite Hc.
Qed.

Lemma strip_idem (s : string) : strip (strip s) = strip s.
Proof.
  unfold strip. now rewrite lstrip_rstrip_lstrip, rstrip_idem.
Qed.

Lemma lstrip_app (a b : string) :
  lstrip (a +:+ b) = if is_empty (lstrip a) then lstrip b else lstrip a +:+ b.
Proof.
  induction a as [|c a IH]; str_simpl; [reflexivity |].
  destruct (isspace c); [exact IH | reflexivity].
Qed.

Lemma contains_cons (n : string) (c : ascii) (s : string) :
  contains n (String c s) = startswith n (String c s) || contains n s.
Proof. reflexivity. Qed.

Lemma contains_tail (n : string) (c : ascii) (s : string) :
  contains n (String c s) = false -> contains n s = false.
Proof.
  rewrite contains_cons. intros Hn. apply orb_false_iff in Hn. tauto.
Qed.

Lemma contains_head (n : string) (c : ascii) (s : string) :
  contains n (String c s) = false -> startswith n (String c s) = false.
Proof.
  rewrite contains_cons. intros Hn. apply orb_false_iff in Hn. tauto.
Qed.

Lemma contains_lstrip (n s : string) :
  contains n s = false -> contains n (lstrip s) = false.
Proof.
  induction s as [|c s IH]; [trivial |].
  intros Hn. simpl lstrip. destruct (isspace c); [|exact Hn].
  apply IH. eapply contains_tail, Hn.
Qed.

End StringFacts.

(** ** The SQL extractor *)

Section ExtractFacts.

Lemma close_here_cons (c : ascii) (t : string) :
  close_here (String c t) =
  (isspace c && close_here t) || startswith fence (String c t).
Proof. reflexivity. Qed.

Lemma lazy_group_unfold (t : string) :
  lazy_group t =
  if close_here t then Some ""
  else match t with
       | "" => None
       | String c t' => String c <$> lazy_group t'
       end.
Proof. destruct t; reflexivity. Qed.

Lemma open_ws_cons (c : ascii) (t : string) :
  open_ws (String c t) =
  if isspace c then
    match open_ws t with
    | Some g => Some g
    | None => lazy_group (String c t)
    end
  else lazy_group (String c t).
Proof. reflexivity. Qed.

Lemma re_search_unfold (s : string) :
  re_search s =
  match match_at s with
  | Some g => Some g
  | None => match s with "" => None | String _ s' => re_search s' end
  end.
Proof. destruct s; reflexivity. Qed.

Lemma close_here_at_fence (t : string) :
  startswith fence t = true -> close_here t = true.
Proof.
  destruct t as [|c t]; [discriminate |].
  intros Hf. rewrite close_here_cons, Hf. apply orb_true_r.
Qed.

Lemma close_here_after_blank (a t : string) :
  lstrip a = "" -> close_here t = true -> close_here (a +:+ t) = true.
Proof.
  intros Ha Ht. induction a as [|c a IH]; [exact Ht |].
  simpl in Ha. destruct (isspace c) eqn:Hc; [|discriminate].
  rewrite append_cons, close_here_cons, Hc, (IH Ha). reflexivity.
Qed.

(** The closing delimiter of a block, on its own line. *)
Lemma close_here_closing (a post : string) :
  lstrip a = "" -> close_here (a +:+ nl +:+ fence +:+ post) = true.
Proof.
  intros Ha. apply close_here_after_blank; [exact Ha |].
  apply close_here_after_blank; [reflexivity |].
  apply close_here_at_fence, startswith_app.
Qed.

(** The fence holds no new line, so none starts across the end of a
    line. *)
Lemma startswith_fence_line (y r : string) :
  startswith fence (y +:+ nl +:+ r) = startswith fence y.
Proof. destruct y as [|c1 [|c2 [|c3 y]]]; reflexivity. Qed.

Lemma close_here_blank_only (y post : string) :
  contains fence y = false ->
  close_here (y +:+ nl +:+ fence +:+ post) = true ->
  lstrip y = "".
Proof.
  induction y as [|c y IH]; [reflexivity |].
  intros Hn Hc.
  pose proof (contains_tail _ _ _ Hn) as Hn'.
  apply contains_head in Hn as Hs.
  rewrite <- (startswith_fence_line (String c y) (fence +:+ post)) in Hs.
  rewrite append_cons in Hs, Hc. rewrite close_here_cons, Hs in Hc.
  rewrite orb_false_r in Hc. apply andb_true_iff in Hc as [Hsp Hc].
  simpl. rewrite Hsp. exact (IH Hn' Hc).
Qed.

(** Without a fence inside [x], the lazy group stops exactly where the
    trailing white space of [x] begins. *)
Lemma lazy_group_block (x post : string) :
  contains fence x = false ->
  lazy_group (x +:+ nl +:+ fence +:+ post) = Some (rstrip x).
Proof.
  induction x as [|c x IH]; intros Hn.
  - rewrite lazy_group_unfold, (close_here_closing "" post); reflexivity.
  - rewrite lazy_group_unfold.
    destruct (close_here (String c x +:+ nl +:+ fence +:+ post)) eqn:Hc.
    + apply close_here_blank_only in Hc; [|exact Hn].
      apply lstrip_blank_rstrip in Hc. now rewrite Hc.
    + rewrite append_cons, (IH (contains_tail _ _ _ Hn)). simpl.
      destruct (rstrip x) eqn:Hr; [|reflexivity].
      destruct (isspace c) eqn:Hsp; [|reflexivity].
      rewrite close_here_closing in Hc; [discriminate |].
      simpl. rewrite Hsp. now apply lstrip_blank_rstrip.
Qed.

Lemma lazy_group_none_cons (c : ascii) (t : string) :
  isspace c = true -> lazy_group t = None ->
  lazy_group (String c t) = None.
Proof.
  intros Hc Ht. rewrite lazy_group_unfold, close_here_cons.
  assert (close_here t = false) as ->.
  { rewrite lazy_group_unfold in Ht. now destruct (close_here t). }
  assert (startswith fence (String c t) = false) as ->.
  { destruct (startswith fence (String c t)) eqn:Hf; [|reflexivity].
    apply startswith_fence_head in Hf. congruence. }
  rewrite andb_false_r, Ht. reflexivity.
Qed.

Lemma lazy_group_none_lstrip (t : string) :
  lazy_group (lstrip t) = None -> lazy_group t = None.
Proof.
  induction t as [|c t IH]; [trivial |]. simpl lstrip.
  destruct (isspace c) eqn:Hc; [|trivial].
  intros Ht. apply lazy_group_none_cons; auto.
Qed.

(** Giving white space back never finds a match the longest run missed. *)
Lemma open_ws_lstrip (t : string) : open_ws t = lazy_group (lstrip t).
Proof.
  induction t as [|c t IH]; [reflexivity |].
  rewrite open_ws_cons. simpl lstrip.
  destruct (isspace c) eqn:Hc; [|reflexivity].
  rewrite IH. destruct (lazy_group (lstrip t)) eqn:Hg; [reflexivity |].
  apply lazy_group_none_cons; [exact Hc |].
  now apply lazy_group_none_lstrip.
Qed.

Lemma open_ws_block (q post : string) :
  contains fence q = false ->
  exists g, open_ws (nl +:+ q +:+ nl +:+ fence +:+ post) = Some g
            /\ strip g = strip q.
Proof.
  intros Hn. rewrite open_ws_lstrip.
  change (lstrip (nl +:+ q +:+ nl +:+ fence +:+ post))
    with (lstrip (q +:+ nl +:+ fence +:+ post)).
  rewrite lstrip_app. unfold strip at 2.
  destruct (lstrip q) as [|c x] eqn:Hq.
  - exists "". split; [|reflexivity]. simpl is_empty. cbv iota.
    change (lstrip (nl +:+ fence +:+ post)) with (fence +:+ post).
    rewrite lazy_group_unfold, close_here_at_fence; [reflexivity |].
    apply startswith_app.
  - exists (rstrip (String c x)). split.
    + simpl is_empty. cbv iota. apply lazy_group_block.
      rewrite <- Hq. now apply contains_lstrip.
    + rewrite <- Hq. unfold strip.
      now rewrite lstrip_rstrip_lstrip, rstrip_idem.
Qed.

(** No occurrence of the opening marker starts before the end of [p] and
    runs into the marker that follows [p]. *)
Lemma marker_no_overlap (p r : string) :
  p <> "" ->
  startswith sql_marker (p +:+ sql_marker +:+ nl +:+ r) = true ->
  startswith sql_marker p = true.
Proof.
  intros Hp Hs. unfold sql_marker in *.
  destruct p as [|c1 [|c2 [|c3 [|c4 [|c5 [|c6 p]]]]]];
    [congruence | .. | exact Hs];
    exfalso; str_simpl_in Hs;
    repeat match type of Hs with
           | context [Ascii.eqb ?a ?b] =>
               is_var b; destruct (Ascii.eqb a b)
           end;
    vm_compute in Hs; discriminate Hs.
Qed.

Lemma re_search_first_marker (pre r g : string) :
  contains sql_marker pre = false ->
  open_ws (nl +:+ r) = Some g ->
  re_search (pre +:+ sql_marker +:+ nl +:+ r) = Some g.
Proof.
  intros Hpre Hg. induction pre as [|c pre IH].
  - rewrite append_nil_l, re_search_unfold. unfold match_at.
    now rewrite removeprefix_app, Hg.
  - rewrite re_search_unfold. unfold match_at.
    assert (removeprefix sql_marker
              (String c pre +:+ sql_marker +:+ nl +:+ r) = None) as ->.
    { apply removeprefix_startswith.
      destruct (startswith sql_marker
                  (String c pre +:+ sql_marker +:+ nl +:+ r)) eqn:Hs;
        [|reflexivity].
      apply marker_no_overlap in Hs; [|discriminate].
      apply contains_head in Hpre. congruence. }
    rewrite append_cons. apply IH. eapply contains_tail, Hpre.
Qed.

Lemma match_at_needs_marker (s : string) :
  startswith sql_marker s = false -> match_at s = None.
Proof.
  intros Hs. unfold match_at.
  now apply removeprefix_startswith in Hs as ->.
Qed.

(** A text that never shows the opening marker has no fenced block. *)
Lemma re_search_without_marker (text : string) :
  contains sql_marker text = false -> re_search text = None.
Proof.
  induction text as [|c text IH]; intros Hn.
  - reflexivity.
  - rewrite re_search_unfold.
    pose proof (contains_tail _ _ _ Hn) as Hn'.
    apply contains_head in Hn as Hs.
    rewrite match_at_needs_marker; auto.
Qed.

Lemma scan_lines_idle (lines : list string) :
  Forall (fun line => startswith "SELECT" (upper (strip line)) = false)
         lines ->
  scan_lines false lines = [].
Proof.
  induction 1 as [|line lines Hl _ IH]; [reflexivity |].
  change (scan_lines false (line :: lines)) with
    (if startswith "SELECT" (upper (strip line)) || false
     then if endswith ";" (strip line) then [strip line]
          else strip line :: scan_lines true lines
     else scan_lines false lines).
  rewrite Hl. exact IH.
Qed.

End ExtractFacts.

(** C5, as the code has it: when the text up to the first [```sql] marker is
    followed by a new line, a query [q] that holds no [```] itself, a new
    line and the closing [```], [extract_sql] returns [q.strip()], whatever
    follows the block -- further fenced blocks included. *)
Theorem extract_sql_first_block (pre q post : string) :
  contains sql_marker pre = false ->
  contains fence q = false ->
  extract_sql (pre +:+ sql_marker +:+ nl +:+ q +:+ nl +:+ fence +:+ post)
  = strip q.
Proof.
  intros Hpre Hq.
  destruct (open_ws_block q post Hq) as (g & Hg & Hstrip).
  unfold extract_sql.
  rewrite (re_search_first_marker pre _ g Hpre Hg). exact Hstrip.
Qed.

Lemma extract_sql_first_block_witness :
  extract_sql ("Here is the query: " +:+ sql_marker +:+ nl
               +:+ "  SELECT name FROM t;  " +:+ nl +:+ fence
               +:+ " or else " +:+ sql_marker +:+ nl +:+ "SELECT 2" +:+ nl
               +:+ fence)
  = "SELECT name FROM t;".
Proof.
  apply (extract_sql_first_block "Here is the query: "
           "  SELECT name FROM t;  "); vm_compute; reflexivity.
Defined.

(** C5, as stated, fails for a query that holds the fence: the lazy group
    stops at the first [```] inside the query, and [SELECT '] comes back. *)
Lemma extract_sql_fence_inside_query :
  extract_sql (sql_marker +:+ nl +:+ "SELECT '```' AS tick" +:+ nl +:+ fence)
  <> strip "SELECT '```' AS tick".
Proof. vm_compute. discriminate. Qed.

Example extract_sql_keyword_scan :
  extract_sql ("The query is" +:+ nl +:+ "  select a" +:+ nl
               +:+ "from t; " +:+ nl +:+ "as asked.")
  = "select a from t;".
Proof. vm_compute. reflexivity. Qed.

(** C6: [extract_sql] is a total function; on a text in which the pattern
    finds no fenced block and no line, trimmed and upper-cased, starts with
    [SELECT], it returns the text unchanged; the empty text gives the empty
    text. *)
Theorem extract_sql_total_fallback (text : string) :
  (exists sql, extract_sql text = sql)
  /\ (re_search text = None ->
      Forall (fun line => startswith "SELECT" (upper (strip line)) = false)
             (split newline text) ->
      extract_sql text = text)
  /\ extract_sql "" = "".
Proof.
  split; [eauto |]. split; [|reflexivity].
  intros Hre Hlines. unfold extract_sql.
  now rewrite Hre, (scan_lines_idle _ Hlines).
Qed.

Lemma extract_sql_total_fallback_witness :
  extract_sql ("I cannot answer that." +:+ nl +:+ "Please rephrase.")
  = "I cannot answer that." +:+ nl +:+ "Please rephrase.".
Proof.
  apply (extract_sql_total_fallback
           ("I cannot answer that." +:+ nl +:+ "Please rephrase.")).
  - vm_compute. reflexivity.
  - vm_compute. repeat constructor.
Defined.

(** ** The result comparator *)

Section ComparatorFacts.
Context {V : Type} `{PyScalar V}.

Lemma list_to_set_eq_iff `{Countable A} (l1 l2 : list A) :
  list_to_set l1 =@{gset A} list_to_set l2 <-> (forall x, x ∈ l1 <-> x ∈ l2).
Proof.
  rewrite set_eq. setoid_rewrite elem_of_list_to_set. reflexivity.
Qed.

Lemma size_list_to_set_dups `{Countable A} (l : list A) :
  size (list_to_set l : gset A) = length (remove_dups l).
Proof.
  rewrite <- (size_list_to_set (C:=gset A) (remove_dups l))
    by apply NoDup_remove_dups.
  f_equal. apply set_eq. intros x.
  rewrite !elem_of_list_to_set. symmetry. apply elem_of_remove_dups.
Qed.

Lemma compare_results_no_error (gold pred : exec_result V) :
  error gold = None -> error pred = None ->
  compare_results gold pred =
  let gold_cols := default [] (column_names gold) in
  let pred_cols := default [] (column_names pred) in
  let gold_data := default [] (results gold) in
  let pred_data := default [] (results pred) in
  if negb (Nat.eqb (length gold_cols) (length pred_cols)) then
    bool_decide (flat_set gold_data ⊆ flat_set pred_data)
    || bool_decide (flat_set pred_data ⊆ flat_set gold_data)
  else if bool_decide (list_to_set gold_cols =@{gset string}
                       list_to_set pred_cols)
  then bool_decide (row_set gold_data = row_set pred_data)
  else bool_decide (row_set gold_data = row_set pred_data)
       || bool_decide (size (row_set gold_data) = size (row_set pred_data)).
Proof.
  intros Hg Hp. unfold compare_results. rewrite Hg, Hp.
  rewrite !bool_decide_false by (intros [? ?]; discriminate).
  reflexivity.
Qed.


End ComparatorFacts.

(** C4: as soon as one of the two results carries the key ["error"],
    [compare_results] answers [False]; its only outcomes are the two
    booleans. *)
Theorem compare_results_error `{PyScalar V} (gold pred : exec_result V) :
  is_Some (error gold) \/ is_Some (error pred) ->
  compare_results gold pred = false.
Proof.
  intros Herr. unfold compare_results.
  destruct Herr as [Hg | Hp].
  - now rewrite (bool_decide_true _ Hg).
  - rewrite (bool_decide_true _ Hp). now rewrite orb_true_r.
Qed.

Lemma compare_results_error_witness :
  compare_results
    {| error := None; results := Some [[SqlInteger 1]];
       column_names := Some ["n"] |}
    {| error := Some "no such table: t"; results := None;
       column_names := None |}
  = false.
Proof.
  apply compare_results_error. right. simpl. eexists. reflexivity.
Defined.

(** C3: for two results without error whose column-name lists are equally
    long: when the two lists hold the same names, the answer is [True]
    exactly when the same row tuples occur on both sides (in any order, any
    number of times); when they do not, it is [True] exactly when the same
    tuples occur or the two sides have the same number of distinct
    tuples. *)
Theorem compare_results_same_width `{PyScalar V}
    (gold pred : exec_result V) :
  error gold = None -> error pred = None ->
  length (default [] (column_names gold))
  = length (default [] (column_names pred)) ->
  let gold_cols := default [] (column_names gold) in
  let pred_cols := default [] (column_names pred) in
  let gold_rows := tuple_key <$> default [] (results gold) in
  let pred_rows := tuple_key <$> default [] (results pred) in
  let same_names := forall c, c ∈ gold_cols <-> c ∈ pred_cols in
  let same_rows := forall row, row ∈ gold_rows <-> row ∈ pred_rows in
  let same_count :=
    length (remove_dups gold_rows) = length (remove_dups pred_rows) in
  (same_names -> (compare_results gold pred = true <-> same_rows))
  /\ (~ same_names ->
      (compare_results gold pred = true <-> same_rows \/ same_count)).
Proof.
  intros Hg Hp Hlen. cbv zeta.
  rewrite (compare_results_no_error gold pred Hg Hp). cbv zeta.
  rewrite Hlen, Nat.eqb_refl. simpl negb. cbv iota.
  unfold row_set. rewrite !size_list_to_set_dups.
  split; intros Hnames.
  - rewrite bool_decide_true by (now apply list_to_set_eq_iff).
    rewrite bool_decide_eq_true. apply list_to_set_eq_iff.
  - rewrite bool_decide_false by (now rewrite list_to_set_eq_iff).
    rewrite orb_true_iff, !bool_decide_eq_true, list_to_set_eq_iff.
    reflexivity.
Qed.

Lemma compare_results_same_width_witness :
  compare_results
    {| error := None;
       results := Some [[SqlInteger 1; SqlText "a"];
                        [SqlInteger 2; SqlText "b"]];
       column_names := Some ["id"; "name"] |}
    {| error := None;
       results := Some [[SqlInteger 1; SqlText "a"]];
       column_names := Some ["id"; "name"] |}
  = true
  <-> (forall row : list sql_value,
         row ∈ [[SqlInteger 1; SqlText "a"]; [SqlInteger 2; SqlText "b"]]
         <-> row ∈ [[SqlInteger 1; SqlText "a"]]).
Proof.
  refine (proj1 (compare_results_same_width
                   {| error := None;
                      results := Some [[SqlInteger 1; SqlText "a"];
                                       [SqlInteger 2; SqlText "b"]];
                      column_names := Some ["id"; "name"] |}
                   {| error := None;
                      results := Some [[SqlInteger 1; SqlText "a"]];
                      column_names := Some ["id"; "name"] |}
                   eq_refl eq_refl eq_refl) _).
  simpl. intros c. reflexivity.
Defined.

Example compare_results_any_order :
  compare_results
    {| error := None;
       results := Some [[SqlInteger 1; SqlText "a"];
                        [SqlInteger 2; SqlText "b"]];
       column_names := Some ["id"; "name"] |}
    {| error := None;
       results := Some [[SqlInteger 2; SqlText "b"];
                        [SqlInteger 1; SqlText "a"];
                        [SqlInteger 2; SqlText "b"]];
       column_names := Some ["id"; "name"] |}
  = true.
Proof. vm_compute. reflexivity. Qed.

Example compare_results_missing_row :
  compare_results
    {| error := None;
       results := Some [[SqlInteger 1; SqlText "a"];
                        [SqlInteger 2; SqlText "b"]];
       column_names := Some ["id"; "name"] |}
    {| error := None;
       results := Some [[SqlInteger 1; SqlText "a"]];
       column_names := Some ["id"; "name"] |}
  = false.
Proof. vm_compute. reflexivity. Qed.

(** C9: for two results without error whose column-name lists differ in
    length, a prediction without rows compares [True] with any gold result:
    the empty set of rendered values is a subset of every set. *)
Theorem compare_results_empty_prediction `{PyScalar V}
    (gold pred : exec_result V) :
  error gold = None -> error pred = None ->
  length (default [] (column_names gold))
  <> length (default [] (column_names pred)) ->
  default [] (results pred) = [] ->
  compare_results gold pred = true.
Proof.
  intros Hg Hp Hlen Hrows.
  rewrite (compare_results_no_error gold pred Hg Hp). cbv zeta.
  apply Nat.eqb_neq in Hlen. rewrite Hlen, Hrows. simpl negb. cbv iota.
  apply orb_true_iff. right. apply bool_decide_eq_true.
  unfold flat_set at 1. simpl. apply empty_subseteq.
Qed.

Lemma compare_results_empty_prediction_witness :
  compare_results
    {| error := None;
       results := Some [[SqlInteger 1; SqlText "a"];
                        [SqlInteger 2; SqlText "b"]];
       column_names := Some ["id"; "name"] |}
    {| error := None; results := Some []; column_names := Some ["id"] |}
  = true.
Proof.
  apply compare_results_empty_prediction;
    [reflexivity | reflexivity | simpl; lia | reflexivity].
Defined.

(** ** The error classifier *)

Section ClassifierFacts.

Lemma lower_app (a b : string) : lower (a +:+ b) = lower a +:+ lower b.
Proof.
  unfold lower. induction a as [|c a IH]; str_simpl; congruence.
Qed.

Lemma lower_app_inv (t a b : string) :
  lower t = a +:+ b ->
  exists ta tb, t = ta +:+ tb /\ lower ta = a /\ lower tb = b.
Proof.
  revert t. induction a as [|c a IH]; intros t Ht.
  - exists "", t. auto.
  - destruct t as [|d t]; [discriminate |].
    rewrite append_cons in Ht. injection Ht as Hd Ht.
    destruct (IH t Ht) as (ta & tb & -> & Ha & Hb).
    exists (String d ta), tb. repeat split; [|exact Hb].
    unfold lower in *. simpl. congruence.
Qed.

Lemma startswith_spec (p s : string) :
  startswith p s = true <-> exists rest, s = p +:+ rest.
Proof.
  revert s. induction p as [|a p IH]; intros s.
  - simpl. split; [eauto | reflexivity].
  - destruct s as [|b s]; simpl.
    + split; [discriminate | intros [? ?]; discriminate].
    + rewrite andb_true_iff, IH. split.
      * intros [Hab [rest ->]]. apply Ascii.eqb_eq in Hab as ->. eauto.
      * intros [rest Hr]. rewrite append_cons in Hr.
        injection Hr as -> ->. split; [apply Ascii.eqb_refl | eauto].
Qed.

Lemma contains_spec (n s : string) :
  contains n s = true <-> exists before after, s = before +:+ n +:+ after.
Proof.
  induction s as [|c s IH].
  - simpl. rewrite orb_false_r, startswith_spec. split.
    + intros [rest ->]. exists "", rest. reflexivity.
    + intros ([|? ?] & after & Hs); [eauto | discriminate].
  - rewrite contains_cons, orb_true_iff, IH, startswith_spec. split.
    + intros [[rest ->] | (before & after & ->)].
      * exists "", rest. reflexivity.
      * exists (String c before), after. reflexivity.
    + intros ([|d before] & after & Hs).
      * left. eauto.
      * right. rewrite append_cons in Hs. injection Hs as -> ->. eauto.
Qed.

(** The substring test on the lower-cased text is the search that
    ignores case on the raw text. *)
Lemma contains_lower (needle text : string) :
  contains (lower needle) (lower text) = true
  <-> occurs_ignoring_case needle text.
Proof.
  rewrite contains_spec. unfold occurs_ignoring_case. split.
  - intros (a & b & Ht).
    apply lower_app_inv in Ht as (ta & tr & -> & _ & Hr).
    apply lower_app_inv in Hr as (tf & tb & -> & Hf & _). eauto.
  - intros (before & found & after & -> & Hf).
    exists (lower before), (lower after).
    now rewrite !lower_app, Hf.
Qed.

Lemma only_in_gold_test (needle : string) (item : detail) :
  contains (lower needle) (lower (default "" (gold_query item)))
  && negb (contains (lower needle)
             (lower (default "" (predicted_query item)))) = true
  <-> only_in_gold needle item.
Proof.
  unfold only_in_gold.
  rewrite andb_true_iff, negb_true_iff, <- !contains_lower.
  rewrite not_true_iff_false. reflexivity.
Qed.

Lemma is_empty_lower (s : string) : is_empty (lower s) = true <-> s = "".
Proof. destruct s; simpl; split; congruence. Qed.

Lemma first_match_test (P : Prop) (b : bool) label rest otherwise label' :
  (b = true <-> P) ->
  first_match otherwise rest label' ->
  first_match otherwise ((P, label) :: rest) (if b then label else label').
Proof.
  intros Hb Hrest. destruct b.
  - apply first_match_here. now apply Hb.
  - apply first_match_later; [|exact Hrest].
    intros HP. apply Hb in HP. discriminate.
Qed.

Lemma first_match_unique otherwise tests l1 l2 :
  first_match otherwise tests l1 -> first_match otherwise tests l2 ->
  l1 = l2.
Proof.
  induction 1 as [|P label rest HP|P label rest label' HnP _ IH];
    inversion 1; subst; try reflexivity; try contradiction.
  now apply IH.
Qed.

Lemma error_type_first_match (item : detail) :
  first_match "Other" (priority item) (error_type item).
Proof.
  unfold priority, error_type.
  apply first_match_test; [apply bool_decide_eq_true |].
  apply first_match_test; [apply is_empty_lower |].
  apply (first_match_test _ _ _ _ _ _ (only_in_gold_test "JOIN" item)).
  apply (first_match_test _ _ _ _ _ _ (only_in_gold_test "WHERE" item)).
  apply (first_match_test _ _ _ _ _ _ (only_in_gold_test "GROUP BY" item)).
  apply (first_match_test _ _ _ _ _ _ (only_in_gold_test "ORDER BY" item)).
  apply (first_match_test _ _ _ _ _ _ (only_in_gold_test "STRFTIME" item)).
  apply (first_match_test _ _ _ _ _ _ (only_in_gold_test "IIF" item)).
  apply first_match_none.
Qed.

(** *** Counting *)

Lemma dict_set_total (k : string) (v : nat) (d : list (string * nat)) :
  sum_list (dict_set k v d).*2 + default 0 (dict_get k d)
  = sum_list d.*2 + v.
Proof.
  induction d as [|[k' v'] d IH]; csimpl; [lia |].
  destruct (String.eqb k k'); csimpl; lia.
Qed.

Lemma bump_total (k : string) (d : list (string * nat)) :
  sum_list (bump k d).*2 = S (sum_list d.*2).
Proof.
  unfold bump.
  pose proof (dict_set_total k (default 0 (dict_get k d) + 1) d). lia.
Qed.

(** Every incorrect record adds one to exactly one error type and to
    exactly one database. *)
Lemma analyze_errors_counts (ds : list detail) error_types db_errors :
  analyze_errors (Some ds) = Some (error_types, db_errors) ->
  sum_list error_types.*2 = length (incorrect_of ds)
  /\ sum_list db_errors.*2 = length (incorrect_of ds).
Proof.
  unfold analyze_errors.
  assert (forall items acc,
            sum_list (foldl tally acc items).1.*2
            = sum_list acc.1.*2 + length items
            /\ sum_list (foldl tally acc items).2.*2
               = sum_list acc.2.*2 + length items) as Hfold.
  { induction items as [|item items IH]; intros acc; simpl; [lia |].
    destruct (IH (tally acc item)) as [-> ->].
    unfold tally. simpl. rewrite !bump_total. lia. }
  destruct (incorrect_of ds) as [|item items] eqn:Hinc; [discriminate |].
  intros [= Hres]. specialize (Hfold (item :: items) ([], [])).
  cbn [foldl] in Hfold, Hres. rewrite Hres in Hfold. exact Hfold.
Qed.

End ClassifierFacts.

(** C7: the label [analyze_errors] gives a record is the label of the first
    test that holds, in the order: execution error present, predicted query
    empty, [JOIN], [WHERE], [GROUP BY], [ORDER BY], the date function
    [STRFTIME], the conditional function [IIF] in the gold query but not in
    the predicted one -- each searched as a substring of the raw text,
    ignoring case -- and [Other] when none holds; no other label fits. *)
Theorem error_type_priority (item : detail) :
  first_match "Other" (priority item) (error_type item)
  /\ (forall label,
        first_match "Other" (priority item) label ->
        label = error_type item).
Proof.
  split; [apply error_type_first_match |].
  intros label Hl.
  exact (first_match_unique _ _ _ _ Hl (error_type_first_match item)).
Qed.

Example error_type_missing_group_by :
  error_type
    {| rec_question := None; rec_db_id := Some "hr";
       gold_query := Some "SELECT dept, COUNT(*) FROM emp GROUP BY dept";
       predicted_query := Some "SELECT * FROM t";
       is_correct := Some false;
       gold_results := None; pred_results := None; run_error := None |}
  = "Missing GROUP BY".
Proof. vm_compute. reflexivity. Qed.

(** ** The schema formatter and the introspector *)

Section SchemaFacts.
Context {V : Type} `{PyScalar V}.

Lemma sample_lines_length (info : table_info V) :
  length (sample_lines info) = Nat.min 2 (length (sample_data info)).
Proof. unfold sample_lines. now rewrite length_fmap, length_take. Qed.

Lemma format_table_keep_two (name : string) (info : table_info V) :
  format_table name (keep_two info) = format_table name info.
Proof.
  unfold format_table, sample_block, sample_lines, sample_str, column_lines.
  simpl. rewrite take_take. simpl.
  now destruct (sample_data info).
Qed.

Lemma format_tables_keep_two (sch : schema V) :
  format_tables (keep_two_schema sch) = format_tables sch.
Proof.
  induction sch as [|[name entry] sch IH]; [reflexivity |].
  simpl. rewrite IH.
  destruct (String.eqb name "foreign_keys"); [reflexivity |].
  destruct entry as [info | fks]; simpl; [|reflexivity].
  now rewrite format_table_keep_two.
Qed.

Lemma dict_get_keep_two (k : string) (sch : schema V) :
  dict_get k (keep_two_schema sch) = keep_two_entry <$> dict_get k sch.
Proof.
  induction sch as [|[name entry] sch IH]; [reflexivity |].
  simpl. now destruct (String.eqb k name).
Qed.

Lemma format_schema_keep_two (sch : schema V) :
  format_schema (keep_two_schema sch) = format_schema sch.
Proof.
  unfold format_schema, format_foreign_keys.
  rewrite format_tables_keep_two, dict_get_keep_two.
  now destruct (dict_get "foreign_keys" sch) as [[info | fks] |].
Qed.

(** *** Dictionaries *)

Lemma dict_get_set_eq {A} (k : string) (v : A) d :
  dict_get k (dict_set k v d) = Some v.
Proof.
  induction d as [|[k' v'] d IH]; simpl.
  - now rewrite String.eqb_refl.
  - destruct (String.eqb k k') eqn:Hk; simpl; rewrite Hk; [reflexivity | exact IH].
Qed.

Lemma dict_set_keys {A} (k : string) (v : A) d :
  (dict_set k v d).*1 =
  if bool_decide (k ∈ d.*1) then d.*1 else (d.*1 ++ [k])%list.
Proof.
  induction d as [|[k' v'] d IH]; [reflexivity |]. csimpl.
  destruct (String.eqb_spec k k') as [<- | Hne]; csimpl.
  - rewrite bool_decide_true by apply list_elem_of_here. reflexivity.
  - rewrite IH. destruct (bool_decide (k ∈ d.*1)) eqn:Hin.
    + apply bool_decide_eq_true in Hin.
      rewrite bool_decide_true by (now apply list_elem_of_further).
      reflexivity.
    + apply bool_decide_eq_false in Hin.
      rewrite bool_decide_false; [reflexivity |].
      intros [? | ?]%elem_of_cons; congruence.
Qed.

Lemma dict_set_NoDup {A} (k : string) (v : A) d :
  NoDup d.*1 -> NoDup (dict_set k v d).*1.
Proof.
  intros Hd. rewrite dict_set_keys. case_bool_decide as Hin; [exact Hd |].
  apply NoDup_app. repeat split; [exact Hd | | apply NoDup_singleton].
  intros x Hx ->%list_elem_of_singleton. contradiction.
Qed.

Lemma dict_get_of_entry {A} (k : string) (v : A) d :
  NoDup d.*1 -> (k, v) ∈ d -> dict_get k d = Some v.
Proof.
  induction d as [|[k' v'] d IH]; intros Hd Hin.
  - now apply elem_of_nil in Hin.
  - csimpl in Hd. apply NoDup_cons in Hd as [Hk' Hd].
    apply elem_of_cons in Hin as [Heq | Hin]; simpl.
    + injection Heq as <- <-. now rewrite String.eqb_refl.
    + destruct (String.eqb_spec k k') as [<- | _]; [|now apply IH].
      exfalso. apply Hk'. apply list_elem_of_fmap. now exists (k, v).
Qed.

Lemma load_tables_NoDup (db : database V) : NoDup (load_tables db).*1.
Proof.
  unfold load_tables.
  assert (forall acc : schema V,
            NoDup acc.*1 ->
            NoDup (foldl (fun sch t =>
                     dict_set (table_name t) (Table (describe t)) sch)
                   acc db).*1) as Hgen.
  { induction db as [|t db IH]; intros acc Hacc; [exact Hacc |].
    simpl. apply IH. now apply dict_set_NoDup. }
  apply Hgen. constructor.
Qed.

Lemma dict_set_Forall {A} (P : string * A -> Prop) k v d :
  P (k, v) -> Forall P d -> Forall P (dict_set k v d).
Proof.
  intros Hkv. induction 1 as [|[k' v'] d Hx Hd IH]; simpl.
  - repeat constructor. exact Hkv.
  - destruct (String.eqb_spec k k') as [<- | _]; constructor; auto.
Qed.

Lemma load_tables_entries (db : database V) :
  Forall (fun kv => exists info, kv.2 = Table info) (load_tables db).
Proof.
  unfold load_tables.
  assert (forall acc : schema V,
            Forall (fun kv => exists info, kv.2 = Table info) acc ->
            Forall (fun kv => exists info, kv.2 = Table info)
              (foldl (fun sch t =>
                        dict_set (table_name t) (Table (describe t)) sch)
                     acc db)) as Hgen.
  { induction db as [|t db IH]; intros acc Hacc; [exact Hacc |].
    simpl. apply IH. apply dict_set_Forall; [simpl; eauto | exact Hacc]. }
  apply Hgen. constructor.
Qed.

Lemma format_tables_ok (sch : schema V) :
  Forall (fun kv => kv.1 = "foreign_keys" \/ exists info, kv.2 = Table info)
         sch ->
  exists text, format_tables sch = inr text.
Proof.
  induction 1 as [|[name entry] sch Hx _ [text IH]]; simpl; [eauto |].
  destruct (String.eqb_spec name "foreign_keys") as [-> | Hne]; [eauto |].
  destruct Hx as [Hname | [info Hinfo]]; simpl in *; [congruence |].
  subst entry. rewrite IH. eauto.
Qed.

(** X6: on what [load_schema] returns, [format_schema] never raises,
    whatever the tables are called. *)
Lemma format_schema_load_schema (db : database V) :
  exists text, format_schema (load_schema db) = inr text.
Proof.
  unfold format_schema, format_foreign_keys.
  destruct (format_tables_ok (load_schema db)) as [text ->].
  { apply dict_set_Forall; [now left |].
    eapply Forall_impl; [apply load_tables_entries |].
    intros kv Hkv. now right. }
  unfold load_schema at 1. rewrite dict_get_set_eq.
  destruct (foreign_keys_of db); eauto.
Qed.

End SchemaFacts.

(** C8: whatever number of sample rows a table descriptor holds, the
    formatter renders the first two at most -- one line each -- and the
    formatted schema is the one of the model cut down to two sample rows
    per table. *)
Theorem format_schema_two_sample_rows `{PyScalar V} :
  (forall info : table_info V,
     length (sample_lines info) <= 2
     /\ length (sample_lines info) = Nat.min 2 (length (sample_data info)))
  /\ (forall sch : schema V,
        format_schema (keep_two_schema sch) = format_schema sch).
Proof.
  split.
  - intros info. rewrite sample_lines_length. lia.
  - apply format_schema_keep_two.
Qed.

(** Four rows in the table, three in the model, two in the text; the table
    called [foreign_keys] is gone from both. *)
Example format_schema_shop :
  format_schema (load_schema shop_db)
  = inr (concat_str
           ((fun line => line +:+ nl) <$>
              [ "DATABASE SCHEMA:";
                "Table: customers";
                "Columns:";
                "  - id (INTEGER)";
                "  - Currency (TEXT)";
                "Sample data:";
                "  id=1, Currency=EUR";
                "  id=2, Currency=CZK";
                "";
                "Foreign Keys:";
                "  foreign_keys.customer → customers.id" ])).
Proof. vm_compute. reflexivity. Qed.


(** ** The pipeline and the batch loop *)

Section PipelineFacts.
Context {W V : Type} `{PyScalar V} `{World W V}.

(** Running one call: name its answer and the world it leaves. *)
Ltac run_call :=
  match goal with
  | Hrun : context [sqlite_introspect ?p ?w] |- _ =>
      let reply := fresh "db" in let w' := fresh "w" in
      destruct (sqlite_introspect p w) as [[?|reply] w']
  | Hrun : context [chat ?r ?m ?msg ?w] |- _ =>
      let reply := fresh "reply" in let w' := fresh "w" in
      destruct (chat r m msg w) as [[?|reply] w']
  | Hrun : context [sqlite_execute ?p ?q ?w] |- _ =>
      let w' := fresh "w" in
      destruct (sqlite_execute p q w) as [[?|[? ?]] w']
  | Hrun : context [format_schema ?s] |- _ =>
      destruct (format_schema s) as [?|?]
  end;
  cbn [world trace fst snd error] in *.

Ltac unfold_run H :=
  unfold process_text_to_sql, execute_and_fix, try_except, lift, mbind,
    M_bind, bind, ret, introspect, initiate_chat, execute_query, record
    in H;
  cbn [world trace fst snd error] in H.

(** C2: in a run where the executor fails twice -- on the refined query
    and on the repaired one -- the Refiner was invoked exactly twice, the
    query extracted from its second reply is what the pipeline returns,
    and the executor ran exactly twice: nothing is tried after the second
    failure. *)
Theorem process_text_to_sql_repairs_once
    (question db_path model : string) (evidence : option string) (w : W)
    (out : result string) (st : state W V) :
  process_text_to_sql question db_path model evidence
    {| world := w; trace := [] |} = (out, st) ->
  2 <= length (filter (fun o => failed o = true) (executions (trace st))) ->
  exists first second,
    refiner_replies (trace st) = [inr first; inr second]
    /\ out = inr (extract_sql second)
    /\ length (executions (trace st)) = 2.
Proof.
  intros Hrun Herr. unfold_run Hrun.
  (* every branch that ends early shows fewer than two failures *)
  repeat (run_call; try (injection Hrun as <- <-; simpl in Herr; lia)).
  injection Hrun as <- <-. eexists _, _. simpl. eauto.
Qed.

End PipelineFacts.

Section BatchFacts.
Context {W V : Type} `{PyScalar V} `{World W V} `{Files W}.

(** An exception of the pipeline leaves the loop of the batch as it is. *)
Lemma evaluate_loop_propagates
    (db_root model output_file : string) (n idx : nat) (acc : run_results)
    (item : benchmark_item) (rest : list benchmark_item)
    (st st' : state W V) (e : exn) :
  process_text_to_sql (question item) (db_path_of db_root item) model
    (Some (default "" (evidence item))) st = (inl e, st') ->
  evaluate_loop db_root model output_file n idx acc (item :: rest) st
  = (inl e, st').
Proof.
  intros Hrun. simpl.
  unfold evaluate_question, mbind, M_bind, bind. now rewrite Hrun.
Qed.



(** Once the question is scored, the rest of the loop body is the
    checkpoint: the loop goes on exactly when it returns. *)
Lemma evaluate_question_steps
    (db_root model output_file : string) (n idx : nat)
    (acc acc' : run_results) (item : benchmark_item)
    (st st1 st2 : state W V) (sql : string) :
  process_text_to_sql (question item) (db_path_of db_root item) model
    (Some (default "" (evidence item))) st = (inr sql, st1) ->
  guard_question acc item sql
    (score_question acc item (db_path_of db_root item) sql) st1
  = (inr acc', st2) ->
  evaluate_question db_root model output_file n idx acc item st
  = match checkpoint output_file n idx acc' st2 with
    | (inr _, st3) => (inr acc', st3)
    | (inl e, st3) => (inl e, st3)
    end.
Proof.
  intros Hrun Hguard.
  unfold evaluate_question, mbind, M_bind, bind at 1 2.
  rewrite Hrun. unfold bind at 1. rewrite Hguard. unfold bind, ret.
  now destruct (checkpoint output_file n idx acc' st2) as [[e | []] st3].
Qed.

(** An exception of the checkpoint write leaves the loop as well. *)
Lemma evaluate_loop_checkpoint_propagates
    (db_root model output_file : string) (n idx : nat)
    (acc acc' : run_results) (item : benchmark_item)
    (rest : list benchmark_item) (st st1 st2 st3 : state W V)
    (sql : string) (e : exn) :
  process_text_to_sql (question item) (db_path_of db_root item) model
    (Some (default "" (evidence item))) st = (inr sql, st1) ->
  guard_question acc item sql
    (score_question acc item (db_path_of db_root item) sql) st1
  = (inr acc', st2) ->
  checkpoint output_file n idx acc' st2 = (inl e, st3) ->
  evaluate_loop db_root model output_file n idx acc (item :: rest) st
  = (inl e, st3).
Proof.
  intros Hrun Hguard Hcp. simpl. unfold mbind, M_bind, bind at 1.
  now rewrite (evaluate_question_steps _ _ _ _ _ _ _ _ _ _ _ _ Hrun Hguard),
    Hcp.
Qed.


End BatchFacts.


Lemma process_text_to_sql_repairs_once_witness :
  exists first second,
    refiner_replies
      (trace (process_text_to_sql "How many customers are there?"
                "dbs/shop/shop.sqlite" "llama3" None
                (start failing_executor)).2)
    = [inr first; inr second]
    /\ (process_text_to_sql "How many customers are there?"
          "dbs/shop/shop.sqlite" "llama3" None (start failing_executor)).1
       = inr (extract_sql second)
    /\ length
         (executions
            (trace (process_text_to_sql "How many customers are there?"
                      "dbs/shop/shop.sqlite" "llama3" None
                      (start failing_executor)).2))
       = 2.
Proof.
  apply (process_text_to_sql_repairs_once
           "How many customers are there?" "dbs/shop/shop.sqlite" "llama3"
           None failing_executor).
  - apply surjective_pairing.
  - vm_compute. lia.
Defined.



(** The checkpoint is written outside the [try] as well: with an output
    file in a directory that does not exist, the write after the last
    question raises, and the batch ends without results although the
    question was answered and scored. *)
Example evaluate_on_benchmark_checkpoint_aborts :
  (evaluate_on_benchmark (drop 1 two_questions) "dbs" "llama3" None
     "out/eval.json" (start missing_database)).1
  = inl (no_such_file "interim_out/eval.json")
  /\ length (executions
               (trace (evaluate_on_benchmark (drop 1 two_questions) "dbs"
                         "llama3" None "out/eval.json"
                         (start missing_database)).2)) = 3.
Proof. split; vm_compute; reflexivity. Qed.

(** * Further properties *)

(** ** Further properties of the comparator *)

Section ComparatorMore.
Context {V : Type} `{PyScalar V}.

(** X1: [compare_results] does not depend on which of the two results is
    called gold and which predicted. *)
Theorem compare_results_symmetric (gold pred : exec_result V) :
  compare_results gold pred = compare_results pred gold.
Proof.
  unfold compare_results.
  rewrite (orb_comm (bool_decide (is_Some (error gold)))).
  destruct (bool_decide (is_Some (error pred))
            || bool_decide (is_Some (error gold))); [reflexivity |].
  cbv zeta.
  rewrite (Nat.eqb_sym (length (default [] (column_names gold)))).
  destruct (Nat.eqb (length (default [] (column_names pred)))
                    (length (default [] (column_names gold)))); simpl.
  - rewrite (bool_decide_ext
               (list_to_set (default [] (column_names gold)) =@{gset string}
                list_to_set (default [] (column_names pred)))
               (list_to_set (default [] (column_names pred)) =@{gset string}
                list_to_set (default [] (column_names gold))))
      by (split; congruence).
    rewrite (bool_decide_ext
               (row_set (default [] (results gold))
                = row_set (default [] (results pred)))
               (row_set (default [] (results pred))
                = row_set (default [] (results gold))))
      by (split; congruence).
    rewrite (bool_decide_ext
               (size (row_set (default [] (results gold)))
                = size (row_set (default [] (results pred))))
               (size (row_set (default [] (results pred)))
                = size (row_set (default [] (results gold)))))
      by (split; congruence).
    reflexivity.
  - apply orb_comm.
Qed.

(** X2: a result without error matches itself, whatever its rows and
    column names. *)
Theorem compare_results_reflexive (res : exec_result V) :
  error res = None -> compare_results res res = true.
Proof.
  intros Herr. rewrite (compare_results_no_error res res Herr Herr).
  cbv zeta. rewrite Nat.eqb_refl. simpl.
  rewrite !bool_decide_true; reflexivity.
Qed.

End ComparatorMore.

Lemma compare_results_reflexive_witness :
  compare_results
    {| error := None; results := Some [[SqlInteger 3]];
       column_names := Some ["COUNT(*)"] |}
    {| error := None; results := Some [[SqlInteger 3]];
       column_names := Some ["COUNT(*)"] |}
  = true.
Proof. apply compare_results_reflexive. reflexivity. Defined.

(** ** Further properties of the introspector and the formatter *)

Section SchemaMore.
Context {V : Type} `{PyScalar V}.

Lemma dict_set_fresh {A} (k : string) (v : A) d :
  k ∉ d.*1 -> dict_set k v d = (d ++ [(k, v)])%list.
Proof.
  induction d as [|[k' v'] d IH]; intros Hk; [reflexivity |].
  csimpl in Hk. apply not_elem_of_cons in Hk as [Hne Hk].
  simpl. destruct (String.eqb_spec k k') as [-> | _]; [congruence |].
  now rewrite IH.
Qed.

Lemma dict_get_set_ne {A} (k k' : string) (v : A) d :
  k <> k' -> dict_get k (dict_set k' v d) = dict_get k d.
Proof.
  intros Hne. induction d as [|[k0 v0] d IH]; simpl.
  - destruct (String.eqb_spec k k'); [congruence | reflexivity].
  - destruct (String.eqb_spec k' k0) as [<- | Hk0]; simpl.
    + destruct (String.eqb_spec k k'); [congruence | reflexivity].
    + destruct (String.eqb_spec k k0); [reflexivity | exact IH].
Qed.

(** With table names that are all different, the dictionary of tables is
    the list of tables, in order. *)
Lemma load_tables_distinct (db : database V) :
  NoDup (table_name <$> db) ->
  load_tables db = (fun t => (table_name t, Table (describe t))) <$> db.
Proof.
  unfold load_tables.
  assert (forall (l : database V) (acc : schema V),
            NoDup (acc.*1 ++ (table_name <$> l)) ->
            foldl (fun sch t =>
                     dict_set (table_name t) (Table (describe t)) sch) acc l
            = (acc ++ ((fun t => (table_name t, Table (describe t))) <$> l))%list)
    as Hgen.
  { induction l as [|t l IH]; intros acc Hnd; simpl.
    - now rewrite app_nil_r.
    - csimpl in Hnd. rewrite IH.
      + rewrite dict_set_fresh.
        * now rewrite <- app_assoc.
        * apply NoDup_app in Hnd as (_ & Hdisj & _).
          intros Hin. apply (Hdisj _ Hin). apply list_elem_of_here.
      + rewrite dict_set_fresh.
        * rewrite fmap_app. csimpl. now rewrite <- app_assoc.
        * apply NoDup_app in Hnd as (_ & Hdisj & _).
          intros Hin. apply (Hdisj _ Hin). apply list_elem_of_here. }
  intros Hnd. now rewrite Hgen.
Qed.

Lemma load_tables_origin (db : database V) :
  Forall (fun kv => exists t, t ∈ db /\ kv = (table_name t, Table (describe t)))
         (load_tables db).
Proof.
  unfold load_tables.
  assert (forall (l : database V) (acc : schema V),
            (forall t, t ∈ l -> t ∈ db) ->
            Forall (fun kv => exists t,
                      t ∈ db /\ kv = (table_name t, Table (describe t))) acc ->
            Forall (fun kv => exists t,
                      t ∈ db /\ kv = (table_name t, Table (describe t)))
              (foldl (fun sch t =>
                        dict_set (table_name t) (Table (describe t)) sch)
                     acc l)) as Hgen.
  { induction l as [|t l IH]; intros acc Hsub Hacc; [exact Hacc |].
    simpl. apply IH.
    - intros t' Ht'. apply Hsub. now apply list_elem_of_further.
    - apply dict_set_Forall; [|exact Hacc].
      exists t. split; [apply Hsub, list_elem_of_here | reflexivity]. }
  apply Hgen; [auto | constructor].
Qed.

Lemma format_tables_snoc_foreign_keys (sch : schema V) (entry : schema_entry V) :
  format_tables (sch ++ [("foreign_keys", entry)])%list = format_tables sch.
Proof.
  induction sch as [|[name e] sch IH]; [reflexivity |].
  simpl. rewrite IH. reflexivity.
Qed.

Lemma format_tables_of_tables (db : database V) :
  "foreign_keys" ∉ table_name <$> db ->
  format_tables ((fun t => (table_name t, Table (describe t))) <$> db)
  = inr (concat_str
           ((fun t => format_table (table_name t) (describe t)) <$> db)).
Proof.
  induction db as [|t db IH]; intros Hfk; [reflexivity |].
  csimpl in Hfk. apply not_elem_of_cons in Hfk as [Hne Hfk].
  csimpl. destruct (String.eqb_spec (table_name t) "foreign_keys");
    [congruence |].
  now rewrite (IH Hfk).
Qed.

(** X3: a table whose name is not [foreign_keys] is found in the schema
    under its name, with its columns, types and first three rows, when the
    table names of the database are all different. *)
Theorem load_schema_lookup (db : database V) (t : db_table V) :
  NoDup (table_name <$> db) -> t ∈ db ->
  table_name t <> "foreign_keys" ->
  dict_get (table_name t) (load_schema db) = Some (Table (describe t)).
Proof.
  intros Hnd Ht Hname. unfold load_schema.
  rewrite dict_get_set_ne by exact Hname.
  apply dict_get_of_entry; [apply load_tables_NoDup |].
  rewrite (load_tables_distinct db Hnd).
  apply list_elem_of_fmap. now exists t.
Qed.

(** X4: every table descriptor in the schema comes from a table of the
    database, holds at most three sample rows, and lists as many types as
    columns. *)
Theorem load_schema_descriptors (db : database V) (name : string)
    (info : table_info V) :
  (name, Table info) ∈ load_schema db ->
  (exists t, t ∈ db /\ name = table_name t /\ info = describe t)
  /\ length (sample_data info) <= 3
  /\ length (columns info) = length (types info).
Proof.
  intros Hin.
  assert (exists t, t ∈ db /\ (name, Table info)
                              = (table_name t, Table (describe t)))
    as (t & Ht & Heq).
  { assert (Forall (fun kv => kv.2 = Edges (foreign_keys_of db)
                      \/ exists t, t ∈ db
                           /\ kv = (table_name t, Table (describe t)))
                   (load_schema db)) as Hall.
    { apply dict_set_Forall; [now left |].
      eapply Forall_impl; [apply load_tables_origin |].
      intros kv Hkv. now right. }
    rewrite Forall_forall in Hall.
    destruct (Hall _ Hin) as [Hedges | Htable]; [discriminate | exact Htable]. }
  injection Heq as -> ->. split; [eauto |].
  unfold describe. simpl. rewrite length_take, !length_fmap. lia.
Qed.

(** X5: for a database whose table names are all different and none of
    which is [foreign_keys], the formatted schema is the header, the
    tables in the order of the database, then the foreign keys -- a
    section left out when there is none. *)
Theorem format_schema_load_schema_text (db : database V) :
  NoDup (table_name <$> db) ->
  "foreign_keys" ∉ table_name <$> db ->
  format_schema (load_schema db)
  = inr ("DATABASE SCHEMA:" +:+ nl
         +:+ concat_str
               ((fun t => format_table (table_name t) (describe t)) <$> db)
         +:+ match foreign_keys_of db with
             | [] => ""
             | fks => "Foreign Keys:" +:+ nl +:+ concat_str (fk_line <$> fks)
             end).
Proof.
  intros Hnd Hfk. unfold format_schema, format_foreign_keys.
  unfold load_schema at 2. rewrite dict_get_set_eq.
  unfold load_schema. rewrite (load_tables_distinct db Hnd).
  rewrite dict_set_fresh.
  - rewrite format_tables_snoc_foreign_keys, (format_tables_of_tables db Hfk).
    now destruct (foreign_keys_of db).
  - rewrite <- list_fmap_compose. exact Hfk.
Qed.

End SchemaMore.

Lemma load_schema_lookup_witness :
  dict_get "loans" (load_schema library_db)
  = Some (Table {| columns := ["book"; "reader"];
                   types := ["INTEGER"; "TEXT"];
                   sample_data := [[SqlInteger 2; SqlText "ann"]] |}).
Proof.
  refine (load_schema_lookup library_db
            {| table_name := "loans";
               table_columns :=
                 [ {| col_name := "book"; col_type := "INTEGER" |};
                   {| col_name := "reader"; col_type := "TEXT" |} ];
               table_rows := [ [SqlInteger 2; SqlText "ann"] ];
               table_fk_list :=
                 [ [SqlInteger 0; SqlInteger 0; SqlText "books";
                    SqlText "book"; SqlText "id"; SqlText "NO ACTION";
                    SqlText "NO ACTION"; SqlText "NONE"] ] |} _ _ _).
  - compute_done.
  - apply list_elem_of_further, list_elem_of_here.
  - discriminate.
Defined.

Lemma load_schema_descriptors_witness :
  length (sample_data
            {| columns := ["id"; "title"]; types := ["INTEGER"; "TEXT"];
               sample_data :=
                 [ [SqlInteger 1; SqlText "Emma"];
                   [SqlInteger 2; SqlText "Ulysses"];
                   [SqlInteger 3; SqlText "Dracula"] ] |}) <= 3.
Proof.
  refine (proj1 (proj2 (load_schema_descriptors library_db "books" _ _))).
  vm_compute. apply list_elem_of_here.
Defined.

Lemma format_schema_load_schema_text_witness :
  format_schema (load_schema library_db)
  = inr (concat_str
           ((fun line => line +:+ nl) <$>
              [ "DATABASE SCHEMA:";
                "Table: books";
                "Columns:";
                "  - id (INTEGER)";
                "  - title (TEXT)";
                "Sample data:";
                "  id=1, title=Emma";
                "  id=2, title=Ulysses";
                "";
                "Table: loans";
                "Columns:";
                "  - book (INTEGER)";
                "  - reader (TEXT)";
                "Sample data:";
                "  book=2, reader=ann";
                "";
                "Foreign Keys:";
                "  loans.book → books.id" ])).
Proof.
  rewrite (format_schema_load_schema_text library_db).
  - vm_compute. reflexivity.
  - compute_done.
  - compute_done.
Defined.

(** ** Further properties of the executor and the pipeline *)

Section PipelineMore.
Context {W V : Type} `{PyScalar V} `{World W V}.

Lemma execute_query_step (db_path query : string) (st : state W V) :
  exists outcome w,
    execute_query db_path query st
    = (inr outcome,
       {| world := w;
          trace := (trace st ++ [Executed db_path query outcome])%list |}).
Proof.
  unfold execute_query, record.
  destruct (sqlite_execute db_path query (world st)) as [out w]. eauto.
Qed.

(** Running one call of the pipeline in the goal. *)
Ltac run_goal :=
  match goal with
  | |- context [sqlite_introspect ?p ?w] =>
      destruct (sqlite_introspect p w) as [[?|?] ?]
  | |- context [chat ?r ?m ?msg ?w] =>
      destruct (chat r m msg w) as [[?|?] ?]
  | |- context [sqlite_execute ?p ?q ?w] =>
      destruct (sqlite_execute p q w) as [[?|[? ?]] ?]
  | |- context [format_schema ?s] =>
      destruct (format_schema s) as [?|?]
  end;
  cbn [world trace fst snd error].

Ltac unfold_pipeline :=
  unfold process_text_to_sql, execute_and_fix, try_except, lift, mbind,
    M_bind, bind, ret, introspect, initiate_chat, execute_query, record;
  cbn [world trace fst snd error].

(** X8: in every run of the pipeline the roles are invoked in the order
    Selector, Decomposer, Refiner, Refiner -- or a beginning of it -- and at
    most two statements are executed, none before the Refiner answered. *)
Theorem process_text_to_sql_stage_order
    (question db_path model : string) (evidence : option string) (w : W) :
  let run := process_text_to_sql question db_path model evidence
               {| world := w; trace := [] |} in
  stage_calls (trace run.2) `prefix_of` [Selector; Decomposer; Refiner; Refiner]
  /\ length (executions (trace run.2)) <= 2
  /\ length (executions (trace run.2))
     <= length (refiner_replies (trace run.2)).
Proof.
  cbv zeta. unfold_pipeline.
  repeat (run_goal;
          try (simpl; split; [| lia];
               solve [ now eexists [_; _; _; _]
                     | now eexists [_; _; _]
                     | now eexists [_; _]
                     | now eexists [_]
                     | now eexists [] ])).
Qed.

(** X9: when the pipeline raises, no statement was executed and no repair
    was asked for: an exception can only come from the introspection, the
    formatting or one of the three stages. *)
Theorem process_text_to_sql_raises_early
    (question db_path model : string) (evidence : option string) (w : W)
    (e : exn) (st : state W V) :
  process_text_to_sql question db_path model evidence
    {| world := w; trace := [] |} = (inl e, st) ->
  executions (trace st) = []
  /\ stage_calls (trace st) `prefix_of` [Selector; Decomposer; Refiner].
Proof.
  intros Hrun. revert Hrun. unfold_pipeline.
  repeat (run_goal;
          try (intros [= <- <-]; simpl; split; [reflexivity |];
               solve [ now eexists [_; _; _]
                     | now eexists [_; _]
                     | now eexists [_]
                     | now eexists [] ]);
          try discriminate).
Qed.

(** X10: when the first execution succeeds, the pipeline returns the query
    of the first Refiner reply; the Refiner is not invoked again and
    nothing else is executed. *)
Theorem process_text_to_sql_no_repair
    (question db_path model : string) (evidence : option string) (w : W)
    (out : result string) (st : state W V) (first : exec_result V) rest :
  process_text_to_sql question db_path model evidence
    {| world := w; trace := [] |} = (out, st) ->
  executions (trace st) = first :: rest ->
  failed first = false ->
  rest = []
  /\ exists reply,
       refiner_replies (trace st) = [inr reply]
       /\ out = inr (extract_sql reply).
Proof.
  intros Hrun. revert Hrun. unfold_pipeline.
  repeat (run_goal;
          try (intros [= <- <-]; simpl; intros Hex Hf;
               solve [ discriminate Hex
                     | injection Hex as <- <-; discriminate Hf
                     | injection Hex as <- <-; eauto ])).
Qed.

(** X11: when the backend raises during the repair, the exception is
    swallowed: the pipeline returns the query of the first Refiner reply,
    after a single execution. *)
Theorem process_text_to_sql_repair_raises
    (question db_path model : string) (evidence : option string) (w : W)
    (out : result string) (st : state W V) (first : string) (e : exn) :
  process_text_to_sql question db_path model evidence
    {| world := w; trace := [] |} = (out, st) ->
  refiner_replies (trace st) = [inr first; inl e] ->
  out = inr (extract_sql first) /\ length (executions (trace st)) = 1.
Proof.
  intros Hrun. revert Hrun. unfold_pipeline.
  repeat (run_goal;
          try (intros [= <- <-]; simpl; intros Href;
               solve [ discriminate Href
                     | injection Href as <- <-; eauto ])).
Qed.

(** X12: the query the pipeline returns is always what [extract_sql] finds
    in a reply of the Refiner -- the second one when there was a repair. *)
Theorem process_text_to_sql_result
    (question db_path model : string) (evidence : option string) (w : W)
    (sql : string) (st : state W V) :
  process_text_to_sql question db_path model evidence
    {| world := w; trace := [] |} = (inr sql, st) ->
  exists reply,
    inr reply ∈ refiner_replies (trace st) /\ sql = extract_sql reply.
Proof.
  intros Hrun. revert Hrun. unfold_pipeline.
  repeat (run_goal;
          try discriminate;
          try (intros [= <- <-]; simpl;
               solve [ eexists; split;
                       [apply list_elem_of_here | reflexivity]
                     | eexists; split;
                       [apply list_elem_of_further, list_elem_of_here
                       | reflexivity] ])).
Qed.

End PipelineMore.

Lemma process_text_to_sql_raises_early_witness :
  executions
    (trace (process_text_to_sql "How many customers are there?"
              "dbs/missing/missing.sqlite" "llama3" None
              (start missing_database)).2) = []
  /\ stage_calls
       (trace (process_text_to_sql "How many customers are there?"
                 "dbs/missing/missing.sqlite" "llama3" None
                 (start missing_database)).2)
     `prefix_of` [Selector; Decomposer; Refiner].
Proof.
  apply (process_text_to_sql_raises_early
           "How many customers are there?" "dbs/missing/missing.sqlite"
           "llama3" None missing_database
           (Exception "unable to open database file")).
  vm_compute. reflexivity.
Defined.

Lemma process_text_to_sql_no_repair_witness :
  (process_text_to_sql "How many orders are there?" "dbs/shop/shop.sqlite"
     "llama3" None (start missing_database)).1
  = inr "SELECT 1".
Proof.
  destruct (process_text_to_sql_no_repair
              "How many orders are there?" "dbs/shop/shop.sqlite" "llama3"
              None missing_database
              (process_text_to_sql "How many orders are there?"
                 "dbs/shop/shop.sqlite" "llama3" None
                 (start missing_database)).1
              (process_text_to_sql "How many orders are there?"
                 "dbs/shop/shop.sqlite" "llama3" None
                 (start missing_database)).2
              {| error := None; results := Some [[SqlInteger 1]];
                 column_names := Some ["1"] |} [])
    as (_ & reply & Hreply & Hout).
  - apply surjective_pairing.
  - vm_compute. reflexivity.
  - vm_compute. reflexivity.
  - vm_compute in Hreply. injection Hreply as <-. exact Hout.
Defined.

Lemma process_text_to_sql_repair_raises_witness :
  (process_text_to_sql "How many customers are there?"
     "dbs/shop/shop.sqlite" "llama3" None (start repair_unavailable)).1
  = inr "SELECT COUNT(*) FROM customers".
Proof.
  refine (proj1 (process_text_to_sql_repair_raises
                   "How many customers are there?" "dbs/shop/shop.sqlite"
                   "llama3" None repair_unavailable _
                   (process_text_to_sql "How many customers are there?"
                      "dbs/shop/shop.sqlite" "llama3" None
                      (start repair_unavailable)).2
                   (fenced "SELECT COUNT(*) FROM customers")
                   (Exception "connection refused") _ _)).
  - apply surjective_pairing.
  - vm_compute. reflexivity.
Defined.

Lemma process_text_to_sql_result_witness :
  exists reply,
    inr reply
    ∈ refiner_replies
        (trace (process_text_to_sql "How many customers are there?"
                  "dbs/shop/shop.sqlite" "llama3" None
                  (start failing_executor)).2)
    /\ "SELECT COUNT(*) FROM customer" = extract_sql reply.
Proof.
  apply (process_text_to_sql_result
           "How many customers are there?" "dbs/shop/shop.sqlite" "llama3"
           None failing_executor).
  vm_compute. reflexivity.
Defined.

(** ** Further properties of the batch loop *)

Section BatchMore.
Context {W V : Type} `{PyScalar V} `{World W V} `{Files W}.




(** X14: on an empty sample [evaluate_on_benchmark] raises the division by
    zero of the accuracy, whatever the world, and touches nothing. *)
Theorem evaluate_on_benchmark_empty
    (benchmark_data : list benchmark_item) (db_root model : string)
    (sample_size : option Z) (output_file : string) (st : state W V) :
  sample benchmark_data sample_size = [] ->
  evaluate_on_benchmark benchmark_data db_root model sample_size output_file
    st
  = (inl (Exception "division by zero"), st).
Proof.
  intros Hs. unfold evaluate_on_benchmark. rewrite Hs. reflexivity.
Qed.

End BatchMore.


Lemma evaluate_on_benchmark_empty_witness :
  evaluate_on_benchmark [] "dbs" "llama3" (Some 3%Z)
    "evaluation_results.json" (start missing_database)
  = (inl (Exception "division by zero"), start missing_database).
Proof. apply evaluate_on_benchmark_empty. reflexivity. Defined.

(** ** Further properties of the error analysis *)

Section AnalysisMore.

Lemma dict_get_bump (k k' : string) (d : list (string * nat)) :
  default 0 (dict_get k (bump k' d))
  = default 0 (dict_get k d) + (if decide (k' = k) then 1 else 0).
Proof.
  unfold bump. destruct (decide (k' = k)) as [-> | Hne].
  - now rewrite dict_get_set_eq.
  - rewrite dict_get_set_ne by congruence. lia.
Qed.

Lemma tally_counts (items : list detail)
    (acc : list (string * nat) * list (string * nat)) (label db : string) :
  default 0 (dict_get label (foldl tally acc items).1)
  = default 0 (dict_get label acc.1)
    + length (filter (fun d => error_type d = label) items)
  /\ default 0 (dict_get db (foldl tally acc items).2)
     = default 0 (dict_get db acc.2)
       + length (filter (fun d => default "unknown" (rec_db_id d) = db) items).
Proof.
  revert acc. induction items as [|item items IH]; intros acc; simpl.
  - split; lia.
  - destruct (IH (tally acc item)) as [-> ->].
    unfold tally. cbn [fst snd]. rewrite !dict_get_bump, !filter_cons.
    split.
    + destruct (decide (error_type item = label)); simpl; lia.
    + destruct (decide (default "unknown" (rec_db_id item) = db)); simpl; lia.
Qed.

Lemma incorrect_of_nil (ds : list detail) :
  incorrect_of ds = [] <-> Forall (fun d => is_correct d = Some true) ds.
Proof.
  unfold incorrect_of. induction ds as [|d ds IH]; [split; constructor |].
  rewrite Forall_cons.
  destruct (is_correct d) as [[|]|] eqn:Hc.
  - rewrite filter_cons_False by (simpl; rewrite Hc; discriminate).
    rewrite IH. tauto.
  - rewrite filter_cons_True by (simpl; rewrite Hc; reflexivity).
    split; [discriminate | intros [? _]; discriminate].
  - rewrite filter_cons_True by (simpl; rewrite Hc; reflexivity).
    split; [discriminate | intros [? _]; discriminate].
Qed.

End AnalysisMore.

(** X15: in what [analyze_errors] returns, the count under an error type is
    the number of incorrect records with that label, and the count under a
    database is the number of incorrect records of that database (a record
    without [db_id] counts under [unknown]); a key that is absent stands
    for zero. *)
Theorem analyze_errors_exact (ds : list detail)
    (error_types db_errors : list (string * nat)) :
  analyze_errors (Some ds) = Some (error_types, db_errors) ->
  (forall label,
     default 0 (dict_get label error_types)
     = length (filter (fun d => error_type d = label) (incorrect_of ds)))
  /\ (forall db,
        default 0 (dict_get db db_errors)
        = length (filter (fun d => default "unknown" (rec_db_id d) = db)
                         (incorrect_of ds))).
Proof.
  unfold analyze_errors.
  destruct (incorrect_of ds) as [|item items] eqn:Hinc; [discriminate |].
  intros [= Hres].
  split.
  - intros label.
    destruct (tally_counts (item :: items) ([], []) label "") as [Hl _].
    cbn [foldl] in Hl. rewrite Hres in Hl. exact Hl.
  - intros db.
    destruct (tally_counts (item :: items) ([], []) "" db) as [_ Hd].
    cbn [foldl] in Hd. rewrite Hres in Hd. exact Hd.
Qed.

Lemma analyze_errors_exact_witness :
  exists error_types db_errors,
    analyze_errors (Some mixed_details) = Some (error_types, db_errors)
    /\ default 0 (dict_get "Missing JOIN" error_types) = 2
    /\ default 0 (dict_get "shop" db_errors) = 2.
Proof.
  eexists _, _. split; [vm_compute; reflexivity |].
  destruct (analyze_errors_exact mixed_details
              [("Missing JOIN", 2); ("Missing WHERE", 1)]
              [("shop", 2); ("hr", 1)]) as [Hl Hd].
  - vm_compute. reflexivity.
  - split; [exact (Hl "Missing JOIN") | exact (Hd "shop")].
Defined.

(** X16: [analyze_errors] has nothing to return exactly when the key
    [details] is missing or every record is marked correct. *)
Theorem analyze_errors_nothing (details : option (list detail)) :
  analyze_errors details = None
  <-> details = None
      \/ exists ds, details = Some ds
                    /\ Forall (fun d => is_correct d = Some true) ds.
Proof.
  destruct details as [ds |]; simpl.
  - split.
    + intros Hn. right. exists ds. split; [reflexivity |].
      apply incorrect_of_nil.
      destruct (incorrect_of ds); [reflexivity | discriminate].
    + intros [? | (ds' & [= <-] & Hall)]; [discriminate |].
      apply incorrect_of_nil in Hall. now rewrite Hall.
  - split; [auto | reflexivity].
Qed.

(** X17: a record without [error] whose predicted query is not empty and
    equals the gold query up to the case of letters is labelled [Other]:
    no clause can be missing from it. *)
Theorem error_type_same_text (item : detail) :
  run_error item = None ->
  default "" (predicted_query item) <> "" ->
  lower (default "" (predicted_query item))
  = lower (default "" (gold_query item)) ->
  error_type item = "Other".
Proof.
  intros Herr Hne Hsame. unfold error_type. rewrite Herr, <- Hsame.
  rewrite bool_decide_false by (intros [? ?]; discriminate).
  destruct (is_empty (lower (default "" (predicted_query item)))) eqn:He.
  - apply is_empty_lower in He. contradiction.
  - now rewrite !andb_negb_r.
Qed.

Lemma error_type_same_text_witness :
  error_type (missed_entry "shop" "SELECT a FROM t WHERE a > 1"
                           "select a from t where a > 1") = "Other".
Proof.
  apply error_type_same_text; [reflexivity | discriminate | reflexivity].
Defined.

(** ** Further properties of the SQL extractor *)

Section ExtractMore.

Lemma startswith_app_l (p a b : string) :
  startswith p a = true -> startswith p (a +:+ b) = true.
Proof.
  rewrite !startswith_spec. intros [rest ->].
  exists (rest +:+ b). now rewrite append_assoc.
Qed.

Lemma contains_app_l (n a b : string) :
  contains n a = true -> contains n (a +:+ b) = true.
Proof.
  rewrite !contains_spec. intros (before & after & ->).
  exists before, (after +:+ b). now rewrite !append_assoc.
Qed.

Lemma rstrip_prefix (s : string) : exists w, s = rstrip s +:+ w.
Proof.
  induction s as [|c s [w IH]]; [now exists "" |].
  rewrite rstrip_cons. destruct (rstrip s) as [|d r] eqn:Hr.
  - destruct (isspace c).
    + now exists (String c s).
    + now exists s.
  - exists w. rewrite append_cons. congruence.
Qed.

Lemma contains_rstrip (n s : string) :
  contains n s = false -> contains n (rstrip s) = false.
Proof.
  intros Hn. destruct (contains n (rstrip s)) eqn:Hr; [|reflexivity].
  destruct (rstrip_prefix s) as [w Hw].
  apply (contains_app_l _ _ w) in Hr. rewrite <- Hw in Hr. congruence.
Qed.

Lemma contains_strip (n s : string) :
  contains n s = false -> contains n (strip s) = false.
Proof. intros Hn. now apply contains_rstrip, contains_lstrip. Qed.

Lemma lazy_group_split (t g : string) :
  lazy_group t = Some g ->
  exists rest, t = g +:+ rest /\ close_here rest = true.
Proof.
  revert g. induction t as [|c t IH]; intros g; rewrite lazy_group_unfold.
  - discriminate.
  - destruct (close_here (String c t)) eqn:Hc.
    + intros [= <-]. now exists (String c t).
    + destruct (lazy_group t) as [g' |]; [|discriminate].
      intros [= <-]. destruct (IH g' eq_refl) as (rest & -> & Hrest).
      now exists rest.
Qed.

(** The lazy group never runs over a fence. *)
Lemma lazy_group_no_fence (t g : string) :
  lazy_group t = Some g -> contains fence g = false.
Proof.
  revert g. induction t as [|c t IH]; intros g; rewrite lazy_group_unfold.
  - discriminate.
  - destruct (close_here (String c t)) eqn:Hc; [now intros [= <-] |].
    destruct (lazy_group t) as [g' |] eqn:Hg; [|discriminate].
    intros [= <-]. rewrite contains_cons, (IH g' eq_refl), orb_false_r.
    destruct (startswith fence (String c g')) eqn:Hs; [|reflexivity].
    destruct (lazy_group_split t g' Hg) as (rest & -> & _).
    apply (startswith_app_l _ _ rest) in Hs. rewrite append_cons in Hs.
    rewrite close_here_cons, Hs, orb_true_r in Hc. discriminate.
Qed.

Lemma re_search_group (s g : string) :
  re_search s = Some g -> exists t, lazy_group t = Some g.
Proof.
  induction s as [|c s IH]; rewrite re_search_unfold; unfold match_at.
  - discriminate.
  - destruct (removeprefix sql_marker (String c s)) as [t |].
    + rewrite open_ws_lstrip.
      destruct (lazy_group (lstrip t)) eqn:Hg; [intros [= <-]; eauto | exact IH].
    + exact IH.
Qed.

Lemma upper_app (a b : string) : upper (a +:+ b) = upper a +:+ upper b.
Proof.
  unfold upper. induction a as [|c a IH]; str_simpl; congruence.
Qed.

Lemma join_cons (sep p : string) (rest : list string) :
  exists tail, join sep (p :: rest) = p +:+ tail.
Proof.
  destruct rest as [|q rest]; simpl.
  - exists "". now rewrite append_nil_r.
  - eauto.
Qed.

Lemma scan_lines_cons (in_sql : bool) (raw : string) (rest : list string) :
  scan_lines in_sql (raw :: rest) =
  if startswith "SELECT" (upper (strip raw)) || in_sql
  then if endswith ";" (strip raw) then [strip raw]
       else strip raw :: scan_lines true rest
  else scan_lines in_sql rest.
Proof. reflexivity. Qed.

Lemma scan_lines_found (lines : list string) :
  Exists (fun line => startswith "SELECT" (upper (strip line)) = true) lines ->
  exists first rest,
    scan_lines false lines = first :: rest
    /\ startswith "SELECT" (upper first) = true.
Proof.
  induction lines as [|raw lines IH]; intros Hex; [inversion Hex |].
  rewrite scan_lines_cons.
  destruct (startswith "SELECT" (upper (strip raw))) eqn:Hs; simpl.
  - destruct (endswith ";" (strip raw)); eauto.
  - apply Exists_cons in Hex as [Hraw | Hex]; [congruence | now apply IH].
Qed.

Lemma scan_lines_stripped (in_sql : bool) (lines : list string) :
  Forall (fun line => exists raw, raw ∈ lines /\ line = strip raw)
         (scan_lines in_sql lines).
Proof.
  revert in_sql. induction lines as [|raw lines IH]; intros in_sql;
    [constructor |].
  assert (forall b, Forall (fun line => exists raw0,
                              raw0 ∈ raw :: lines /\ line = strip raw0)
                           (scan_lines b lines)) as Htail.
  { intros b. eapply Forall_impl; [apply IH |].
    intros line (raw0 & Hin & ->). exists raw0.
    split; [now apply list_elem_of_further | reflexivity]. }
  assert (exists raw0, raw0 ∈ raw :: lines /\ strip raw = strip raw0) as Hhead.
  { exists raw. split; [apply list_elem_of_here | reflexivity]. }
  rewrite scan_lines_cons.
  destruct (startswith "SELECT" (upper (strip raw)) || in_sql); [|apply Htail].
  destruct (endswith ";" (strip raw)); repeat constructor; auto.
Qed.

Lemma contains_char_cons (c d : ascii) (s : string) :
  contains (String c "") (String d s)
  = Ascii.eqb c d || contains (String c "") s.
Proof.
  rewrite contains_cons. simpl. now rewrite andb_true_r.
Qed.

Lemma contains_char_app (c : ascii) (a b : string) :
  contains (String c "") (a +:+ b)
  = contains (String c "") a || contains (String c "") b.
Proof.
  induction a as [|d a IH].
  - rewrite append_nil_l. reflexivity.
  - rewrite append_cons, !contains_char_cons, IH. now rewrite orb_assoc.
Qed.

Lemma split_pieces (sep : ascii) (s : string) :
  Forall (fun piece => contains (String sep "") piece = false) (split sep s).
Proof.
  induction s as [|c s IH]; simpl; [repeat constructor |].
  destruct (Ascii.eqb c sep) eqn:Hc.
  - constructor; [reflexivity | exact IH].
  - destruct (split sep s) as [|piece pieces]; [repeat constructor |].
    + rewrite contains_char_cons, Ascii.eqb_sym, Hc. reflexivity.
    + apply Forall_cons in IH as [Hp Hps]. constructor; [|exact Hps].
      rewrite contains_char_cons, Ascii.eqb_sym, Hc. exact Hp.
Qed.

Lemma join_without_char (c : ascii) (sep : string) (pieces : list string) :
  contains (String c "") sep = false ->
  Forall (fun piece => contains (String c "") piece = false) pieces ->
  contains (String c "") (join sep pieces) = false.
Proof.
  intros Hsep. induction 1 as [|p pieces Hp Hps IH]; [reflexivity |].
  destruct pieces as [|q pieces]; [exact Hp |].
  change (join sep (p :: q :: pieces))
    with (p +:+ sep +:+ join sep (q :: pieces)).
  now rewrite !contains_char_app, Hp, Hsep, IH.
Qed.

End ExtractMore.

(** X18: when the text holds a fenced block, what [extract_sql] returns is
    the trimmed group of the match: it holds no [```] and has no white
    space left at either end. *)
Theorem extract_sql_block_clean (text g : string) :
  re_search text = Some g ->
  extract_sql text = strip g
  /\ contains fence (extract_sql text) = false
  /\ strip (extract_sql text) = extract_sql text.
Proof.
  intros Hre. unfold extract_sql. rewrite Hre.
  split; [reflexivity |]. split; [|apply strip_idem].
  destruct (re_search_group text g Hre) as [t Ht].
  apply contains_strip. exact (lazy_group_no_fence t g Ht).
Qed.

Lemma extract_sql_block_clean_witness :
  contains fence
    (extract_sql ("Try " +:+ fenced " SELECT '```' AS tick " +:+ " now"))
  = false.
Proof.
  refine (proj1 (proj2 (extract_sql_block_clean
                          ("Try " +:+ fenced " SELECT '```' AS tick "
                           +:+ " now")
                          "SELECT '" _))).
  vm_compute. reflexivity.
Defined.

(** X19: when the text holds no fenced block but a line that, trimmed and
    upper-cased, starts with [SELECT], what [extract_sql] returns starts
    with [SELECT] up to the case of letters and is a single line. *)
Theorem extract_sql_keyword_rule (text : string) :
  re_search text = None ->
  Exists (fun line => startswith "SELECT" (upper (strip line)) = true)
         (split newline text) ->
  startswith "SELECT" (upper (extract_sql text)) = true
  /\ contains nl (extract_sql text) = false.
Proof.
  intros Hre Hex. unfold extract_sql. rewrite Hre.
  destruct (scan_lines_found _ Hex) as (first & rest & Hscan & Hfirst).
  pose proof (scan_lines_stripped false (split newline text)) as Hall.
  rewrite Hscan in *. split.
  - destruct (join_cons " " first rest) as [tail ->].
    rewrite upper_app. now apply startswith_app_l.
  - apply join_without_char; [reflexivity |].
    eapply Forall_impl; [exact Hall |].
    intros line (raw & Hraw & ->). apply contains_strip.
    pose proof (split_pieces newline text) as Hpieces.
    rewrite Forall_forall in Hpieces. now apply Hpieces.
Qed.

Lemma extract_sql_keyword_rule_witness :
  startswith "SELECT"
    (upper (extract_sql ("Sure:" +:+ nl +:+ "  select a" +:+ nl
                         +:+ "  from t;" +:+ nl +:+ "Done.")))
  = true.
Proof.
  refine (proj1 (extract_sql_keyword_rule
                   ("Sure:" +:+ nl +:+ "  select a" +:+ nl +:+ "  from t;"
                    +:+ nl +:+ "Done.") _ _)).
  - vm_compute. reflexivity.
  - vm_compute. apply Exists_cons_tl, Exists_cons_hd. reflexivity.
Defined.

(** ** Properties of the entry points *)

Section SingleFacts.
Context {W V : Type} `{PyScalar V} `{World W V}.



End SingleFacts.


Section OptimizeFacts.

Lemma pick_distinct_spec (num : nat) (correct sel out : list detail)
    (ids : gset string) :
  pick_distinct num sel ids correct = inr out ->
  NoDup sel ->
  (forall x, x ∈ sel -> exists db, rec_db_id x = Some db /\ db ∈ ids) ->
  NoDup out
  /\ (forall x, x ∈ out -> x ∈ sel \/ x ∈ correct)
  /\ length out <= Nat.max num (length sel).
Proof.
  revert sel ids. induction correct as [|item rest IH]; intros sel ids.
  - intros [= <-] Hnd _. repeat split; [exact Hnd | auto | lia].
  - simpl. destruct (Nat.leb_spec num (length sel)) as [Hle | Hlt].
    { intros [= <-] Hnd _. repeat split; [exact Hnd | auto | lia]. }
    destruct (rec_db_id item) as [db |] eqn:Hdb; [|discriminate].
    case_bool_decide as Hin; intros Hpick Hnd Hids.
    + destruct (IH _ _ Hpick Hnd Hids) as (Hout & Hsub & Hlen).
      repeat split; [exact Hout | | exact Hlen].
      intros x Hx. destruct (Hsub x Hx); [now left | right].
      now apply list_elem_of_further.
    + destruct (IH _ _ Hpick) as (Hout & Hsub & Hlen).
      * apply NoDup_app. repeat split; [exact Hnd | | apply NoDup_singleton].
        intros x Hx ->%list_elem_of_singleton.
        destruct (Hids _ Hx) as (db' & Hdb' & Hin'). congruence.
      * intros x [Hx | ->%list_elem_of_singleton]%elem_of_app.
        -- destruct (Hids _ Hx) as (db' & Hdb' & Hin').
           exists db'. split; [exact Hdb' | apply elem_of_union; now right].
        -- exists db. split; [exact Hdb |].
           apply elem_of_union. left. now apply elem_of_singleton.
      * repeat split; [exact Hout | | rewrite length_app in Hlen; simpl in Hlen; lia].
        intros x Hx. destruct (Hsub x Hx) as [Hs | Hr].
        -- apply elem_of_app in Hs as [Hs | ->%list_elem_of_singleton];
             [now left | right; apply list_elem_of_here].
        -- right. now apply list_elem_of_further.
Qed.

Lemma fill_up_spec (num : nat) (correct sel : list detail) :
  NoDup sel ->
  NoDup (fill_up num sel correct)
  /\ (forall x, x ∈ fill_up num sel correct -> x ∈ sel \/ x ∈ correct)
  /\ length (fill_up num sel correct) <= Nat.max num (length sel)
  /\ (forall x, x ∈ sel -> x ∈ fill_up num sel correct)
  /\ (num <= length (fill_up num sel correct)
      \/ forall x, x ∈ correct -> x ∈ fill_up num sel correct).
Proof.
  revert sel. induction correct as [|item rest IH]; intros sel Hnd.
  - simpl. repeat split; [exact Hnd | auto | lia | auto |].
    right. intros x Hx. now apply elem_of_nil in Hx.
  - simpl. destruct (Nat.leb_spec num (length sel)) as [Hle | Hlt].
    { repeat split; [exact Hnd | auto | lia | auto | now left]. }
    case_bool_decide as Hin.
    + destruct (IH sel Hnd) as (Hout & Hsub & Hlen & Hmono & Hfull).
      repeat split; [exact Hout | | exact Hlen | exact Hmono |].
      * intros x Hx. destruct (Hsub x Hx); [now left | right].
        now apply list_elem_of_further.
      * destruct Hfull as [Hfull | Hfull]; [now left | right].
        intros x [-> | Hx]%elem_of_cons; [now apply Hmono | now apply Hfull].
    + destruct (IH (sel ++ [item])%list)
        as (Hout & Hsub & Hlen & Hmono & Hfull).
      { apply NoDup_app. repeat split; [exact Hnd | | apply NoDup_singleton].
        intros x Hx ->%list_elem_of_singleton. contradiction. }
      repeat split; [exact Hout | | | |].
      * intros x Hx. destruct (Hsub x Hx) as [Hs | Hr].
        -- apply elem_of_app in Hs as [Hs | ->%list_elem_of_singleton];
             [now left | right; apply list_elem_of_here].
        -- right. now apply list_elem_of_further.
      * rewrite length_app in Hlen. simpl in Hlen. lia.
      * intros x Hx. apply Hmono. apply elem_of_app. now left.
      * destruct Hfull as [Hfull | Hfull]; [now left | right].
        intros x [-> | Hx]%elem_of_cons; [|now apply Hfull].
        apply Hmono. apply elem_of_app. right. apply list_elem_of_here.
Qed.

Lemma correct_of_spec (ds : list detail) (x : detail) :
  x ∈ correct_of ds <-> x ∈ ds /\ is_correct x = Some true.
Proof.
  unfold correct_of. rewrite list_elem_of_filter.
  destruct (is_correct x) as [[|]|]; simpl; split; intros [? ?];
    (split; [assumption || reflexivity || discriminate |]);
    assumption || reflexivity || discriminate.
Qed.

End OptimizeFacts.

(** X23: the few-shot examples [optimize_prompts] selects are at most
    three, are all different, and are records marked correct; when the
    correct records are all different, exactly [min(3, len(correct))] are
    selected. *)
Theorem select_examples_sound (ds selected : list detail) :
  select_examples (correct_of ds) = inr selected ->
  length selected <= 3
  /\ NoDup selected
  /\ Forall (fun x => x ∈ ds /\ is_correct x = Some true) selected
  /\ (NoDup (correct_of ds) ->
      length selected = Nat.min 3 (length (correct_of ds))).
Proof.
  unfold select_examples. cbv zeta.
  remember (Nat.min 3 (length (correct_of ds))) as num eqn:Hnum.
  destruct (pick_distinct num [] ∅ (correct_of ds)) as [e | first] eqn:Hpick;
    [discriminate |].
  apply pick_distinct_spec in Hpick as (Hnd1 & Hsub1 & Hlen1);
    [| constructor | intros x Hx; now apply elem_of_nil in Hx].
  cbn [length] in Hlen1.
  destruct (fill_up_spec num (correct_of ds) first Hnd1)
    as (Hnd2 & Hsub2 & Hlen2 & _ & Hfull).
  assert (forall x, x ∈ first -> x ∈ ds /\ is_correct x = Some true) as Hok1.
  { intros x Hx. apply correct_of_spec.
    destruct (Hsub1 x Hx) as [Hn | Hc];
      [now apply elem_of_nil in Hn | exact Hc]. }
  destruct (Nat.ltb_spec (length first) num) as [Hlt | Hge]; intros [= <-].
  - split; [lia |]. split; [exact Hnd2 |]. split.
    + apply Forall_forall. intros x Hx.
      destruct (Hsub2 x Hx) as [Hf | Hc];
        [now apply Hok1 | now apply correct_of_spec].
    + intros Hndc. destruct Hfull as [Hfull | Hall]; [lia |].
      pose proof (submseteq_length _ _ (NoDup_submseteq _ _ Hndc Hall)). lia.
  - split; [lia |]. split; [exact Hnd1 |]. split; [|lia].
    apply Forall_forall. exact Hok1.
Qed.

Lemma select_examples_sound_witness :
  exists selected,
    select_examples (correct_of mixed_details) = inr selected
    /\ length selected = 2.
Proof.
  eexists. split; [vm_compute; reflexivity |].
  refine (proj2 (proj2 (proj2 (select_examples_sound mixed_details
                                 [solved_entry "shop" "SELECT 1";
                                  solved_entry "hr" "SELECT 2"] _))) _).
  - vm_compute. reflexivity.
  - compute_done.
Defined.

(** X22: [optimize_prompts] raises when there is nothing to analyze -- the
    key [details] is missing, or every record is marked correct --: it
    unpacks the [None] that [analyze_errors] returns. *)
Theorem optimize_prompts_nothing_to_analyze
    (DECOMPOSER_PROMPT REFINER_PROMPT : string)
    (details : option (list detail)) :
  details = None
  \/ (exists ds, details = Some ds
                 /\ Forall (fun d => is_correct d = Some true) ds) ->
  optimize_prompts DECOMPOSER_PROMPT REFINER_PROMPT details
  = inl (Exception "cannot unpack non-iterable NoneType object").
Proof.
  intros Hnone. unfold optimize_prompts.
  assert (analyze_errors details = None) as ->; [|reflexivity].
  destruct Hnone as [-> | (ds & -> & Hall)]; [reflexivity |].
  simpl. apply incorrect_of_nil in Hall. now rewrite Hall.
Qed.

Lemma optimize_prompts_nothing_to_analyze_witness :
  optimize_prompts "Generate SQL." "Fix SQL."
    (Some [solved_entry "shop" "SELECT 1"; solved_entry "hr" "SELECT 2"])
  = inl (Exception "cannot unpack non-iterable NoneType object").
Proof.
  apply optimize_prompts_nothing_to_analyze. right.
  eexists. split; [reflexivity |]. repeat constructor.
Defined.

(** X24: when [optimize_prompts] returns, the Decomposer prompt and the
    Refiner prompt are extended by the same text, and that text begins
    with the heading of the common errors. *)
Theorem optimize_prompts_same_addition
    (DECOMPOSER_PROMPT REFINER_PROMPT : string)
    (details : option (list detail)) (decomposer refiner : string) :
  optimize_prompts DECOMPOSER_PROMPT REFINER_PROMPT details
  = inr (decomposer, refiner) ->
  exists added,
    decomposer = DECOMPOSER_PROMPT +:+ added
    /\ refiner = REFINER_PROMPT +:+ added
    /\ startswith guidance_heading added = true.
Proof.
  unfold optimize_prompts.
  destruct (analyze_errors details) as [[error_types db_errors] |] eqn:Han;
    [|discriminate].
  destruct (select_examples _) as [e | selected]; [discriminate |].
  destruct (format_examples 0 selected) as [e | listed]; [discriminate |].
  intros [= <- <-].
  assert (error_types <> []) as Hne.
  { destruct details as [ds |]; [|discriminate].
    pose proof (analyze_errors_counts ds _ _ Han) as [Hsum _].
    unfold analyze_errors in Han.
    destruct (incorrect_of ds); [discriminate |].
    intros ->. simpl in Hsum. lia. }
  destruct error_types as [|et ets]; [congruence |].
  eexists. split; [reflexivity |]. split; [reflexivity |].
  unfold error_guidance. rewrite !append_assoc. apply startswith_app.
Qed.

Lemma optimize_prompts_same_addition_witness :
  exists added,
    (default ("", "")
       (match optimize_prompts "Generate SQL." "Fix SQL." (Some mixed_details)
        with inr p => Some p | inl _ => None end)).1
    = "Generate SQL." +:+ added
    /\ (default ("", "")
          (match optimize_prompts "Generate SQL." "Fix SQL."
                   (Some mixed_details)
           with inr p => Some p | inl _ => None end)).2
       = "Fix SQL." +:+ added
    /\ startswith guidance_heading added = true.
Proof.
  apply (optimize_prompts_same_addition "Generate SQL." "Fix SQL."
           (Some mixed_details)).
  vm_compute. reflexivity.
Defined.

(** ** Properties of the executability check *)

Section TestFacts.
Context {W V : Type} `{PyScalar V} `{World W V}.

(** The executions of the gold queries of [items], with their outcomes. *)
Lemma test_loop_invariant (db_root : string) (items : list benchmark_item)
    (acc : run_results) (st : state W V) :
  exists acc' st' outs,
    test_loop db_root acc items st = (inr acc', st')
    /\ length outs = length items
    /\ total acc' = total acc
    /\ trace st'
       = (trace st
          ++ zip_with (fun item o =>
                         Executed (db_path_of db_root item) (SQL item) o)
                      items outs)%list
    /\ details acc'
       = (details acc
          ++ ((fun io => executed_entry io.1 io.2)
                <$> filter (fun io => failed io.2 = false)
                           (zip items outs)))%list
    /\ correct acc'
       = correct acc
         + length (filter (fun io => failed io.2 = false) (zip items outs)).
Proof.
  revert acc st. induction items as [|item items IH]; intros acc st.
  - exists acc, st, []. simpl. rewrite !app_nil_r.
    repeat split; lia.
  - simpl. unfold mbind, M_bind, bind.
    destruct (execute_query_step (db_path_of db_root item) (SQL item) st)
      as (gold & w & ->).
    destruct (error gold) as [msg |] eqn:Herr.
    + destruct (IH acc {| world := w;
                          trace := (trace st
                                    ++ [Executed (db_path_of db_root item)
                                          (SQL item) gold])%list |})
        as (acc' & st' & outs & -> & Hlen & Ht & Htr & Hd & Hc).
      cbn [trace] in Htr. rewrite <- app_assoc in Htr.
      exists acc', st', (gold :: outs).
      cbn [zip_with]. unfold zip in *. cbn [zip_with].
      rewrite filter_cons_False
        by (cbn [snd]; unfold failed; rewrite Herr;
            rewrite bool_decide_true by eauto; discriminate).
      simpl. repeat split; auto.
    + destruct (IH {| correct := S (correct acc); total := total acc;
                      details := details acc ++ [executed_entry item gold] |}
                   {| world := w;
                      trace := (trace st
                                ++ [Executed (db_path_of db_root item)
                                      (SQL item) gold])%list |})
        as (acc' & st' & outs & -> & Hlen & Ht & Htr & Hd & Hc).
      cbn [trace correct total details] in Ht, Htr, Hd, Hc.
      rewrite <- app_assoc in Htr, Hd.
      exists acc', st', (gold :: outs).
      unfold zip in *. cbn [zip_with].
      rewrite filter_cons_True
        by (cbn [snd]; unfold failed; rewrite Herr;
            apply bool_decide_eq_false; intros [? ?]; discriminate).
      simpl. repeat split; auto; lia.
Qed.

(** X25: when [test_evaluation] returns, what it did is to execute the gold
    query of every question of the slice against that question's
    database, one after the other, and nothing else -- no call to the
    backend; [details] holds the entry of every question whose gold query
    did not fail, in order, [correct] is their number, and [total] is the
    size of the slice. *)
Theorem test_evaluation_returns
    (benchmark_data : list benchmark_item) (db_root : string)
    (sample_size : Z) (st st' : state W V) (res : run_results) :
  test_evaluation benchmark_data db_root sample_size st = (inr res, st') ->
  let data := py_prefix sample_size benchmark_data in
  total res = length data
  /\ exists outs,
       length outs = length data
       /\ trace st'
          = (trace st
             ++ zip_with (fun item o =>
                            Executed (db_path_of db_root item) (SQL item) o)
                         data outs)%list
       /\ details res
          = (fun io => executed_entry io.1 io.2)
              <$> filter (fun io => failed io.2 = false) (zip data outs)
       /\ correct res = length (details res).
Proof.
  unfold test_evaluation, mbind, M_bind, bind. cbv zeta.
  destruct (test_loop_invariant db_root (py_prefix sample_size benchmark_data)
              {| correct := 0;
                 total := length (py_prefix sample_size benchmark_data);
                 details := [] |} st)
    as (acc' & st1 & outs & -> & Hlen & Ht & Htr & Hd & Hc).
  cbn [correct total details] in Ht, Hd, Hc. rewrite app_nil_l in Hd.
  destruct (Nat.eqb (total acc') 0); [discriminate |].
  intros [= <- <-].
  split; [exact Ht |]. exists outs.
  split; [exact Hlen |]. split; [exact Htr |]. split; [exact Hd |].
  rewrite Hc, Hd, length_fmap. reflexivity.
Qed.

End TestFacts.

Lemma test_evaluation_returns_witness :
  exists outs,
    length outs = 1
    /\ trace (test_evaluation two_questions "dbs" 1%Z
                (start missing_database)).2
       = ([] ++ zip_with (fun item o =>
                            Executed (db_path_of "dbs" item) (SQL item) o)
                         (take 1 two_questions) outs)%list
    /\ [ {| rec_question := Some "How many customers are there?";
            rec_db_id := Some "missing";
            gold_query := Some "SELECT 1";
            predicted_query := None;
            is_correct := None;
            gold_results := Some "[(1,)]";
            pred_results := None;
            run_error := None |} ]
       = (fun io => executed_entry io.1 io.2)
           <$> filter (fun io => failed io.2 = false)
                      (zip (take 1 two_questions) outs)
    /\ 1 = 1.
Proof.
  refine (proj2 (test_evaluation_returns two_questions "dbs" 1%Z
                   (start missing_database)
                   (test_evaluation two_questions "dbs" 1%Z
                      (start missing_database)).2
                   {| correct := 1; total := 1;
                      details :=
                        [ {| rec_question :=
                               Some "How many customers are there?";
                             rec_db_id := Some "missing";
                             gold_query := Some "SELECT 1";
                             predicted_query := None;
                             is_correct := None;
                             gold_results := Some "[(1,)]";
                             pred_results := None;
                             run_error := None |} ] |} _)).
  vm_compute. reflexivity.
Defined.
